(** * sheet2json: the record converter

    A shallow embedding of the converter of [src/index.ts]
    ([convertToJson], [validateHeaders], [parseValue]) and of its
    JavaScript copy, with the fragment of JavaScript they rely on.

    Conventions of the embedding.
    - A string is a sequence of UTF-16 code units; the embedding covers the
      code units below 256, one [ascii] each.
    - A number is an IEEE binary64 value ([PrimFloat.float]).
    - An object is the finite map of its own enumerable properties; where
      the code enumerates an object ([for ... in], [Object.keys]) the input
      object is given by those properties in enumeration order.  The
      objects the converter builds start as [{}] and inherit the accessor
      [__proto__] of [Object.prototype]: an assignment under that name
      defines no own property ([assign]).
    - A thrown exception is the [Throws] outcome of the error monad. *)

From Stdlib Require Import ZArith Ascii String PrimFloat SpecFloat FloatOps FloatAxioms.
From stdpp Require Import gmap strings list pretty.

Local Open Scope Z_scope.
Local Open Scope string_scope.

#[local] Arguments String.append !s1 s2 : simpl nomatch.
#[local] Set Warnings "-clear-no-such-hyp".

(** ** The JavaScript fragment *)

Module JavaScript.

(** *** Characters and strings *)

Definition code (c : ascii) : N := N_of_ascii c.

(** [\d]: an ASCII digit. *)
Definition is_digit (c : ascii) : bool :=
  (48 <=? code c)%N && (code c <=? 57)%N.

(** WhiteSpace and LineTerminator code units below 256, the ones
    [String.prototype.trim] strips: TAB, LF, VT, FF, CR, SP, NBSP. *)
Definition is_white_space (c : ascii) : bool :=
  ((9 <=? code c)%N && (code c <=? 13)%N) || (code c =? 32)%N || (code c =? 160)%N.

(** [String.prototype.toLowerCase] on one code unit below 256: A-Z, and
    the Latin-1 capitals U+00C0..U+00DE except the multiplication sign. *)
Definition lower_char (c : ascii) : ascii :=
  if ((65 <=? code c)%N && (code c <=? 90)%N)
     || ((192 <=? code c)%N && (code c <=? 222)%N && negb (code c =? 215)%N)
  then ascii_of_N (code c + 32)
  else c.

Fixpoint toLowerCase (s : string) : string :=
  match s with
  | EmptyString => EmptyString
  | String c rest => String (lower_char c) (toLowerCase rest)
  end.

Fixpoint trim_start (s : string) : string :=
  match s with
  | String c rest => if is_white_space c then trim_start rest else s
  | EmptyString => EmptyString
  end.

(** Strips trailing white space: a character is kept when it is not white
    space or when something is kept after it. *)
Fixpoint trim_end (s : string) : string :=
  match s with
  | EmptyString => EmptyString
  | String c rest =>
      match trim_end rest with
      | EmptyString => if is_white_space c then EmptyString else String c EmptyString
      | kept => String c kept
      end
  end.

Definition trim (s : string) : string := trim_end (trim_start s).

Fixpoint all_chars (p : ascii -> bool) (s : string) : bool :=
  match s with
  | EmptyString => true
  | String c rest => p c && all_chars p rest
  end.

(** *** Regular expressions

    The two patterns of [parseValue] are anchored on both sides, so
    [RegExp.prototype.test] asks whether the whole string is in the
    language; it is decided with Brzozowski derivatives. *)

Inductive regex : Type :=
| Void
| Eps
| Class (p : ascii -> bool)
| Seq (r1 r2 : regex)
| Alt (r1 r2 : regex)
| Star (r : regex).

Definition Plus (r : regex) : regex := Seq r (Star r).
Definition Chr (c : ascii) : regex := Class (Ascii.eqb c).

Fixpoint nullable (r : regex) : bool :=
  match r with
  | Void => false
  | Eps => true
  | Class _ => false
  | Seq r1 r2 => nullable r1 && nullable r2
  | Alt r1 r2 => nullable r1 || nullable r2
  | Star _ => true
  end.

Fixpoint deriv (c : ascii) (r : regex) : regex :=
  match r with
  | Void => Void
  | Eps => Void
  | Class p => if p c then Eps else Void
  | Seq r1 r2 =>
      if nullable r1
      then Alt (Seq (deriv c r1) r2) (deriv c r2)
      else Seq (deriv c r1) r2
  | Alt r1 r2 => Alt (deriv c r1) (deriv c r2)
  | Star r1 => Seq (deriv c r1) (Star r1)
  end.

(** [/^r$/.test(s)] *)
Fixpoint test (r : regex) (s : string) : bool :=
  match s with
  | EmptyString => nullable r
  | String c rest => test (deriv c r) rest
  end.

(** The language of a pattern, the specification of [test]. *)
Inductive lang : regex -> string -> Prop :=
| lang_eps : lang Eps ""
| lang_class p c : p c = true -> lang (Class p) (String c "")
| lang_seq r1 r2 s1 s2 : lang r1 s1 -> lang r2 s2 -> lang (Seq r1 r2) (s1 ++ s2)
| lang_alt_l r1 r2 s : lang r1 s -> lang (Alt r1 r2) s
| lang_alt_r r1 r2 s : lang r2 s -> lang (Alt r1 r2) s
| lang_star_nil r : lang (Star r) ""
| lang_star_cons r c s1 s2 :
    lang r (String c s1) -> lang (Star r) s2 -> lang (Star r) (String c s1 ++ s2).

(** *** Numbers *)

(** The value of a run of decimal digits. *)
Fixpoint digits_value_from (acc : Z) (s : string) : Z :=
  match s with
  | EmptyString => acc
  | String c rest => digits_value_from (10 * acc + (Z.of_N (code c) - 48)) rest
  end.

Definition digits_value (s : string) : Z := digits_value_from 0 s.

(** The binary64 number nearest to the non-negative integer [n] (ties to
    even, infinity on overflow). *)
Definition number_of_Z (n : Z) : float :=
  SF2Prim (binary_normalize prec emax n 0 false).

(** The binary64 number nearest to [n / 10^k], for [0 <= n]. *)
Definition number_of_decimal (n : Z) (k : nat) : float :=
  match n, 10 ^ Z.of_nat k with
  | Zpos m, Zpos d =>
      SF2Prim (SFdiv prec emax (S754_finite false m 0) (S754_finite false d 0))
  | _, _ => zero
  end.

(** [parseInt(s, 10)] on the strings [parseValue] passes to it, the
    non-empty runs of digits; on a string with no digit at all the
    built-in answers NaN. *)
Definition parseInt (s : string) : float :=
  if all_chars is_digit s && negb (String.eqb s "")
  then number_of_Z (digits_value s)
  else nan.

(** Splits at the first full stop. *)
Fixpoint split_dot (s : string) : option (string * string) :=
  match s with
  | EmptyString => None
  | String c rest =>
      if Ascii.eqb c "."
      then Some (EmptyString, rest)
      else match split_dot rest with
           | Some (a, b) => Some (String c a, b)
           | None => None
           end
  end.

(** [parseFloat(s)] on the strings [parseValue] passes to it: digits, a
    full stop, at least one digit. *)
Definition parseFloat (s : string) : float :=
  match split_dot s with
  | Some (a, b) =>
      if all_chars is_digit a && all_chars is_digit b && negb (String.eqb b "")
      then number_of_decimal (digits_value (a ++ b)) (String.length b)
      else nan
  | None => nan
  end.

(** *** Values *)

#[local] Set Warnings "-register-all".

Inductive jsval : Type :=
| VUndefined
| VNull
| VBool (b : bool)
| VNum (n : float)
| VStr (s : string)
| VArr (items : list jsval)
| VObj (props : list (string * jsval)).

Definition typeof (v : jsval) : string :=
  match v with
  | VUndefined => "undefined"
  | VNull => "object"
  | VBool _ => "boolean"
  | VNum _ => "number"
  | VStr _ => "string"
  | VArr _ => "object"
  | VObj _ => "object"
  end.

(** ToBoolean, the truthiness [!v] negates. *)
Definition to_boolean (v : jsval) : bool :=
  match v with
  | VUndefined | VNull => false
  | VBool b => b
  | VNum n => negb (is_zero n || is_nan n)
  | VStr s => negb (String.eqb s "")
  | VArr _ | VObj _ => true
  end.

(** The own enumerable properties in enumeration order, as [for ... in]
    and [Object.keys] visit them: those of an object as given, those of an
    array and of a string its indices, none for a number or a boolean.
    On [null] and [undefined] a [for ... in] loop runs no iteration.  The
    input is plain data, as a parsed JSON text is: it inherits no
    enumerable property, so [for ... in] visits what [Object.keys]
    lists. *)
Definition entries (v : jsval) : list (string * jsval) :=
  match v with
  | VObj props => props
  | VArr items => imap (fun i x => (pretty i, x)) items
  | VStr s => imap (fun i c => (pretty i, VStr (String c ""))) (list_ascii_of_string s)
  | _ => []
  end.

(** [Object.keys(v)].  On [null] and [undefined] the built-in throws;
    the converter calls it behind the two tests of its guard that exclude
    them, and [keys] is the empty list there. *)
Definition keys (v : jsval) : list string := (entries v).*1.

(** [obj[key] = v] on an object that started as [{}].  Under any name but
    ["__proto__"] the own property is defined or overwritten.  Under
    ["__proto__"] the assignment reaches the accessor inherited from
    [Object.prototype], whose setter at most changes the prototype: the own
    properties stay as they are.  The converter assigns under
    ["__proto__"] at most once per object -- the sheet names are the keys
    of one object, the header texts are distinct after validation -- so no
    assignment under that name meets an object whose prototype an earlier
    one has changed. *)
Definition assign {A : Type} (key : string) (v : A) (obj : gmap string A) : gmap string A :=
  if String.eqb key "__proto__" then obj else <[key := v]> obj.

(** [a[i]] for an array [a]; past the end it is [undefined].  The
    converter indexes only a header row that [validateHeaders] accepted,
    which is an array. *)
Definition index (a : jsval) (i : nat) : jsval :=
  match a with
  | VArr items => default VUndefined (items !! i)
  | _ => VUndefined
  end.

(** [items.reduce((acc, x, i) => f acc x i, init)] *)
Fixpoint reduce_from {A B : Type} (f : B -> A -> nat -> B) (i : nat)
    (items : list A) (acc : B) : B :=
  match items with
  | [] => acc
  | x :: rest => reduce_from f (S i) rest (f acc x i)
  end.

Definition reduce {A B : Type} (f : B -> A -> nat -> B) (items : list A) (init : B) : B :=
  reduce_from f 0 items init.

(** *** Exceptions *)

Inductive exn : Type :=
| Error (message : string)
| TypeError.

Inductive outcome (A : Type) : Type :=
| Returns (a : A)
| Throws (e : exn).
Arguments Returns {A} a.
Arguments Throws {A} e.

Definition bind {A B : Type} (m : outcome A) (k : A -> outcome B) : outcome B :=
  match m with
  | Returns a => k a
  | Throws e => Throws e
  end.

(** [items.map(f)] where [f] may throw: the first exception ends the map. *)
Fixpoint map_throwing {A B : Type} (f : A -> outcome B) (items : list A) : outcome (list B) :=
  match items with
  | [] => Returns []
  | x :: rest =>
      bind (f x) (fun y => bind (map_throwing f rest) (fun ys => Returns (y :: ys)))
  end.

(** A loop over [items] threading the state [acc], left by the first
    exception. *)
Fixpoint for_each {A S : Type} (body : S -> A -> outcome S) (items : list A) (acc : S) : outcome S :=
  match items with
  | [] => Returns acc
  | x :: rest => bind (body acc x) (for_each body rest)
  end.

End JavaScript.

Import JavaScript.

Notation "x <- m ;; k" := (bind m (fun x => k))
  (at level 100, m at next level, right associativity).

(** ** The converter *)

(** A record of the output: header text to parsed cell. *)
Abbreviation record := (gmap string jsval).

(** [JsonSheetData]: sheet name to the records of its data rows. *)
Abbreviation JsonSheetData := (gmap string (list (gmap string jsval))).

Definition re_integer : regex := Plus (Class is_digit).
Definition re_decimal : regex :=
  Seq (Star (Class is_digit)) (Seq (Chr ".") (Plus (Class is_digit))).

(** [parseValue], lines 145-159 (and 286-298 of the JavaScript copy). *)
Definition parseValue (value : jsval) : jsval :=
  match value with
  | VNull | VUndefined => VNull
  | VStr text =>
      if test re_integer text then VNum (parseInt text)
      else if test re_decimal text then VNum (parseFloat text)
      else if String.eqb (toLowerCase text) "true" then VBool true
      else if String.eqb (toLowerCase text) "false" then VBool false
      else value
  | _ => value
  end.

(** The loop of [validateHeaders] over the header cells, [seen] being
    the set of the headers met so far. *)
Fixpoint validateHeaders_loop (seen : gset string) (headers : list jsval) : bool :=
  match headers with
  | [] => true
  | VStr header :: rest =>
      if String.eqb (trim header) "" then false
      else if bool_decide (header ∈ seen) then false
      else validateHeaders_loop ({[header]} ∪ seen) rest
  | _ :: _ => false
  end.

(** [validateHeaders], lines 126-139 (and 269-280). *)
Definition validateHeaders (headers : jsval) : bool :=
  match headers with
  | VArr cells => validateHeaders_loop ∅ cells
  | _ => false
  end.

Definition invalid_headers_message (sheet : string) : string :=
  "Invalid or duplicate headers in sheet: " ++ sheet.

(** The top-level guard of [convertToJson], lines 85-91. *)
Definition nothing_to_convert (spreadsheetData : jsval) : bool :=
  negb (to_boolean spreadsheetData)
  || negb (String.eqb (typeof spreadsheetData) "object")
  || (length (keys spreadsheetData) =? 0)%nat.

(** [row.reduce(callback, {})]: [reduce] is a method of arrays only, so
    on any other row the call is a [TypeError]. *)
Definition reduce_row (callback : gmap string jsval -> jsval -> nat -> gmap string jsval)
    (row : jsval) : outcome (gmap string jsval) :=
  match row with
  | VArr cells => Returns (reduce callback cells ∅)
  | _ => Throws TypeError
  end.

(** The body of the [for ... in] loop, lines 96-116, for the reducer
    callback [callback headers].  The first pattern is
    [Array.isArray(data) && data.length >= 2] together with the
    destructuring [[headers, ...rows] = data]. *)
Definition convert_sheet
    (callback : jsval -> gmap string jsval -> jsval -> nat -> gmap string jsval)
    (result : JsonSheetData) (entry : string * jsval) : outcome JsonSheetData :=
  let '(sheet, data) := entry in
  match data with
  | VArr (headers :: (_ :: _) as rows) =>
      if negb (validateHeaders headers)
      then Throws (Error (invalid_headers_message sheet))
      else
        records <- map_throwing (reduce_row (callback headers)) rows ;;
        Returns (assign sheet records result)
  | _ => Returns (assign sheet [] result)
  end.

(** [convertToJson], lines 84-120 and 227-263: the two copies are the
    same text but for the test inside the reducer callback. *)
Definition convert_with
    (callback : jsval -> gmap string jsval -> jsval -> nat -> gmap string jsval)
    (spreadsheetData : jsval) : outcome JsonSheetData :=
  if nothing_to_convert spreadsheetData then Returns ∅
  else for_each (convert_sheet callback) (entries spreadsheetData) ∅.

(** The TypeScript source, [src/index.ts] lines 84-120. *)
Module Ts.

(** Lines 107-112: the key is emitted when [headers[index] === "string"]. *)
Definition callback (headers : jsval) (obj : gmap string jsval) (value : jsval) (i : nat)
    : gmap string jsval :=
  match index headers i with
  | VStr header =>
      if String.eqb header "string"
      then assign header (parseValue value) obj
      else obj
  | _ => obj
  end.

Definition convertToJson : jsval -> outcome JsonSheetData := convert_with callback.

End Ts.

(** The JavaScript copy, lines 227-263. *)
Module Js.

(** Lines 250-255: the key is emitted when
    [typeof headers[index] === "string"]. *)
Definition callback (headers : jsval) (obj : gmap string jsval) (value : jsval) (i : nat)
    : gmap string jsval :=
  if String.eqb (typeof (index headers i)) "string"
  then
    match index headers i with
    | VStr header => assign header (parseValue value) obj
    | _ => obj
    end
  else obj.

Definition convertToJson : jsval -> outcome JsonSheetData := convert_with callback.

End Js.

(** ** Vocabulary of the statements *)

(** A run of ASCII digits, possibly empty. *)
Definition digits (s : string) : Prop := all_chars is_digit s = true.

(** The texts of [^\d+$]: one or more digits. *)
Definition integer_text (s : string) : Prop := s <> "" /\ digits s.

(** The texts of [^\d*\.\d+$]: digits, a full stop, one or more digits. *)
Definition decimal_text (s : string) : Prop :=
  exists a b, s = a ++ String "." b /\ digits a /\ b <> "" /\ digits b.

(** The capital of a lower-case ASCII letter. *)
Definition capital (w : ascii) : ascii := ascii_of_N (code w - 32).

(** [s] is [word], a lower-case ASCII word, up to the case of each letter. *)
Fixpoint equal_ignoring_case (word s : string) : Prop :=
  match word, s with
  | EmptyString, EmptyString => True
  | String w word', String c s' => (c = w \/ c = capital w) /\ equal_ignoring_case word' s'
  | _, _ => False
  end.

(** The letters of the two boolean words. *)
Definition word_letters : list ascii :=
  ["t"; "r"; "u"; "e"; "f"; "a"; "l"; "s"]%char.

Ltac word_letter :=
  unfold word_letters; repeat first [apply list_elem_of_here | apply list_elem_of_further].

(** The cells of a header row. *)
Definition header_cells (headers : jsval) : list jsval :=
  match headers with
  | VArr cells => cells
  | _ => []
  end.

(** A valid header row: a sequence of texts, none empty after trimming,
    no two of them equal as they stand (untrimmed). *)
Definition valid_header_row (headers : jsval) : Prop :=
  exists texts : list string,
    headers = VArr (VStr <$> texts)
    /\ Forall (fun text => trim text <> "") texts
    /\ NoDup texts.


(** A grid of at least two rows whose header row is not valid. *)
Definition offending_sheet (data : jsval) : Prop :=
  exists headers rows,
    data = VArr (headers :: rows) /\ rows <> [] /\ ~ valid_header_row headers.

Definition is_array (v : jsval) : Prop := exists items, v = VArr items.

(** The data rows of every grid are sequences, as the type [SheetData]
    has them. *)
Definition data_rows_are_arrays (spreadsheetData : jsval) : Prop :=
  forall sheet headers rows,
    (sheet, VArr (headers :: rows)) ∈ entries spreadsheetData ->
    Forall is_array rows.

(** No data row is longer than its header row. *)
Definition rows_fit_headers (spreadsheetData : jsval) : Prop :=
  forall sheet headers rows cells,
    (sheet, VArr (headers :: rows)) ∈ entries spreadsheetData ->
    VArr cells ∈ rows ->
    (length cells <= length (header_cells headers))%nat.

(** What the loop body assigns to [result[sheet]], or the exception it
    throws. *)
Definition sheet_records
    (callback : jsval -> gmap string jsval -> jsval -> nat -> gmap string jsval)
    (entry : string * jsval) : outcome (list (gmap string jsval)) :=
  match entry.2 with
  | VArr (headers :: (_ :: _) as rows) =>
      if negb (validateHeaders headers)
      then Throws (Error (invalid_headers_message entry.1))
      else map_throwing (reduce_row (callback headers)) rows
  | _ => Returns []
  end.

(** [result[k] = v] for each pair of [items] in turn. *)
Definition assign_all (result : JsonSheetData) (items : list (string * list (gmap string jsval)))
    : JsonSheetData :=
  foldl (fun acc item => assign item.1 item.2 acc) result items.

(** The conversion without the check on [headers[index]], for the
    comparison with the conversion that has it: every cell is assigned
    under the property name of [headers[index]].  The loop runs after
    validation, when a header cell is a text and the only other value
    [headers[index]] takes is [undefined], past the end of the header
    row, whose property name is "undefined". *)
Module Unguarded.

Definition callback (headers : jsval) (obj : gmap string jsval) (value : jsval) (i : nat)
    : gmap string jsval :=
  match index headers i with
  | VStr header => assign header (parseValue value) obj
  | _ => assign "undefined" (parseValue value) obj
  end.

Definition convertToJson : jsval -> outcome JsonSheetData := convert_with callback.

End Unguarded.

(** The texts among the cells of a header row. *)
Definition header_texts (headers : jsval) : list string :=
  omap (fun cell => match cell with VStr text => Some text | _ => None end)
    (header_cells headers).

(** The record the reducer builds from the cells of one data row. *)
Definition record_of
    (callback : jsval -> gmap string jsval -> jsval -> nat -> gmap string jsval)
    (headers : jsval) (cells : list jsval) : gmap string jsval :=
  reduce (callback headers) cells ∅.

(** Inputs of the examples. *)
Definition sheet1 : jsval :=
  VObj [("Sheet1",
         VArr [VArr [VStr "Name"; VStr "Age"; VStr "Active"];
               VArr [VStr "Alice"; VStr "30"; VStr "true"];
               VArr [VStr "Bob"; VStr "25"; VStr "false"]])].

Definition name_sheet : jsval :=
  VObj [("Sheet1", VArr [VArr [VStr "Name"]; VArr [VStr "Alice"]])].

Definition long_row_sheet : jsval :=
  VObj [("Sheet1", VArr [VArr [VStr "A"]; VArr [VStr "1"; VStr "2"]])].

Definition duplicate_headers_sheet : jsval :=
  VObj [("Good", VArr [VArr [VStr "Name"]; VArr [VStr "Alice"]]);
        ("Bad", VArr [VArr [VStr "Name"; VStr "Name"]; VArr [VStr "Alice"; VStr "Bob"]])].

Definition headers_only_sheet : jsval :=
  VObj [("Empty", VArr []); ("Headers", VArr [VArr [VNum 1; VStr ""]])].

(** ** The public operation *)

(** [(error as Error).message]: the message an [Error] was built with;
    the text the engine gives its own [TypeError] is [type_error_message]. *)
Definition message (type_error_message : string) (e : exn) : string :=
  match e with
  | Error text => text
  | TypeError => type_error_message
  end.


(** ** Vocabulary of the further properties *)

(** A cell a valid header row may hold: a text that is not empty after
    trimming. *)
Definition header_cell (cell : jsval) : Prop :=
  exists text, cell = VStr text /\ trim text <> "".

(** The characters of the texts [parseValue] changes: the digits, the
    full stop, and the letters of "true" and "false" in either case. *)
Definition parsed_char (c : ascii) : bool :=
  is_digit c || Ascii.eqb c "."
  || existsb (fun w => Ascii.eqb c w || Ascii.eqb c (capital w)) word_letters.

(** A sheet whose loop body throws the [TypeError] of a data row that is
    no sequence: at least two rows, a valid header row, such a data row. *)
Definition ill_typed_sheet (data : jsval) : Prop :=
  exists headers rows row,
    data = VArr (headers :: rows) /\ valid_header_row headers
    /\ row ∈ rows /\ ~ is_array row.

(** A property of the converter that holds of the TypeScript source and
    of the JavaScript copy. *)
Definition both_copies (P : (jsval -> outcome JsonSheetData) -> Prop) : Prop :=
  P Ts.convertToJson /\ P Js.convertToJson.

(** A property of the reducer callback that holds of both copies. *)
Definition both_callbacks
    (P : (jsval -> gmap string jsval -> jsval -> nat -> gmap string jsval) -> Prop) : Prop :=
  P Ts.callback /\ P Js.callback.

(** A value [parseValue] has nothing left to do on, and that is not
    [undefined]. *)
Definition parsed_value (v : jsval) : Prop := parseValue v = v /\ v <> VUndefined.

(** The own property names that assignments under [names] define: all
    of them but ["__proto__"]. *)
Definition own_names (names : list string) : gset string :=
  list_to_set (filter (fun name => name <> "__proto__") names).

(** The entries the [for ... in] loop of [convertToJson] runs over: none
    when the guard returns first. *)
Definition loop_entries (spreadsheetData : jsval) : list (string * jsval) :=
  if nothing_to_convert spreadsheetData then [] else entries spreadsheetData.

(** [convertToJson] with the [for ... in] loop visiting the sheets in the
    order [order], for the comparison of runs that enumerate the same
    input in different orders. *)
Definition convert_in_order
    (callback : jsval -> gmap string jsval -> jsval -> nat -> gmap string jsval)
    (spreadsheetData : jsval) (order : list (string * jsval)) : outcome JsonSheetData :=
  if nothing_to_convert spreadsheetData then Returns ∅
  else for_each (convert_sheet callback) order ∅.

(** The integer that a finite binary64 datum [m * 2 ^ e] is, up to its
    sign, when it is one. *)
Definition integer_of_spec_float (x : spec_float) : option Z :=
  match x with
  | S754_zero _ => Some 0
  | S754_finite s m e =>
      let sign := (if s then -1 else 1)%Z in
      if Z.leb 0 e then Some (sign * (Z.pos m * 2 ^ e))%Z
      else if Z.eqb (Z.pos m mod 2 ^ (- e)) 0 then Some (sign * (Z.pos m / 2 ^ (- e)))%Z
      else None
  | _ => None
  end.

(** The integer that a number is, when it is one. *)
Definition integer_of_number (f : float) : option Z := integer_of_spec_float (Prim2SF f).


(** ** The top-level guard *)

Lemma convert_with_guard callback x :
  nothing_to_convert x = true -> convert_with callback x = Returns ∅.
Proof. intros H. unfold convert_with. by rewrite H. Qed.

(** C8: an input that is no sheet set at all -- [null], [undefined], a
    value whose type is not "object", or an object (or array) with no
    entry -- converts to the empty record set, and nothing is thrown.  Both
    copies of the converter agree on this. *)
Theorem convertToJson_nothing_to_convert (x : jsval) :
  x = VNull \/ x = VUndefined \/ typeof x <> "object" \/ keys x = [] ->
  Ts.convertToJson x = Returns ∅ /\ Js.convertToJson x = Returns ∅.
Proof.
  intros H.
  assert (nothing_to_convert x = true) as G.
  { unfold nothing_to_convert.
    destruct H as [-> | [-> | [H | H]]]; try reflexivity.
    - destruct x; simpl in *; try congruence; by rewrite ?orb_true_r.
    - rewrite H. simpl. by rewrite orb_true_r. }
  split; by apply convert_with_guard.
Qed.

Lemma convertToJson_nothing_to_convert_witness :
  (VStr "Sheet1" = VNull \/ VStr "Sheet1" = VUndefined
   \/ typeof (VStr "Sheet1") <> "object" \/ keys (VStr "Sheet1") = [])
  /\ Ts.convertToJson (VStr "Sheet1") = Returns ∅
  /\ Js.convertToJson (VStr "Sheet1") = Returns ∅.
Proof.
  assert (VStr "Sheet1" = VNull \/ VStr "Sheet1" = VUndefined
          \/ typeof (VStr "Sheet1") <> "object" \/ keys (VStr "Sheet1") = []) as H.
  { right; right; left. simpl. discriminate. }
  split; [exact H | exact (convertToJson_nothing_to_convert (VStr "Sheet1") H)].
Defined.

(** ** Strings and patterns *)

Section StringFacts.

Lemma append_eq_empty (a b : string) : a ++ b = "" -> a = "" /\ b = "".
Proof. destruct a; simpl; [done | discriminate]. Qed.

Lemma all_chars_append p (a b : string) :
  all_chars p (a ++ b) = all_chars p a && all_chars p b.
Proof. induction a as [|c a IH]; simpl; [done | by rewrite IH, andb_assoc]. Qed.

End StringFacts.

Section RegexFacts.

Lemma lang_void_inv s : ~ lang Void s.
Proof. inversion 1. Qed.

Lemma lang_eps_inv s : lang Eps s <-> s = "".
Proof. split; [by inversion 1 | intros ->; constructor]. Qed.

Lemma lang_class_inv p s :
  lang (Class p) s <-> exists c, s = String c "" /\ p c = true.
Proof.
  split.
  - inversion 1; subst; eauto.
  - intros (c & -> & H). by constructor.
Qed.

Lemma lang_seq_inv r1 r2 s :
  lang (Seq r1 r2) s <-> exists s1 s2, s = s1 ++ s2 /\ lang r1 s1 /\ lang r2 s2.
Proof.
  split.
  - inversion 1; subst; eauto.
  - intros (s1 & s2 & -> & H1 & H2). by constructor.
Qed.

Lemma lang_alt_inv r1 r2 s : lang (Alt r1 r2) s <-> lang r1 s \/ lang r2 s.
Proof.
  split.
  - inversion 1; subst; eauto.
  - intros [H | H]; [by apply lang_alt_l | by apply lang_alt_r].
Qed.

Lemma lang_star_cons_inv r c s :
  lang (Star r) (String c s) <->
  exists s1 s2, s = s1 ++ s2 /\ lang r (String c s1) /\ lang (Star r) s2.
Proof.
  split.
  - inversion 1; subst. simplify_eq/=. eauto.
  - intros (s1 & s2 & -> & H1 & H2). by apply (lang_star_cons r c s1 s2).
Qed.

Lemma nullable_spec r : nullable r = true <-> lang r "".
Proof.
  induction r as [| |p|r1 IH1 r2 IH2|r1 IH1 r2 IH2|r IH]; simpl.
  - split; [done | by intros ?%lang_void_inv].
  - split; [constructor | done].
  - split; [done | by intros (c & ? & _)%lang_class_inv].
  - rewrite andb_true_iff, IH1, IH2, lang_seq_inv. split.
    + intros [H1 H2]. by exists "", "".
    + intros (s1 & s2 & [-> ->]%eq_sym%append_eq_empty & H1 & H2). done.
  - by rewrite orb_true_iff, IH1, IH2, lang_alt_inv.
  - split; [constructor | done].
Qed.

Lemma deriv_spec c r : forall s, lang (deriv c r) s <-> lang r (String c s).
Proof.
  induction r as [| |p|r1 IH1 r2 IH2|r1 IH1 r2 IH2|r IH]; intros s; simpl.
  - split; by intros ?%lang_void_inv.
  - split; [by intros ?%lang_void_inv | by intros ?%lang_eps_inv].
  - rewrite lang_class_inv. destruct (p c) eqn:Hp.
    + rewrite lang_eps_inv. split; [intros ->; eauto |].
      by intros (c' & [= <- ->] & _).
    + split; [by intros ?%lang_void_inv |].
      intros (c' & [= <- ->] & ?). congruence.
  - assert (lang (Seq (deriv c r1) r2) s <->
            exists s1 s2, s = s1 ++ s2 /\ lang r1 (String c s1) /\ lang r2 s2) as Hhead.
    { rewrite lang_seq_inv. split; intros (s1 & s2 & -> & H1 & H2);
        exists s1, s2; split_and!; try done; by apply IH1. }
    assert (lang (Seq r1 r2) (String c s) <->
            (exists s1 s2, s = s1 ++ s2 /\ lang r1 (String c s1) /\ lang r2 s2)
            \/ (lang r1 "" /\ lang r2 (String c s))) as Hseq.
    { rewrite lang_seq_inv. split.
      - intros (s1 & s2 & Heq & H1 & H2). destruct s1 as [|c' s1]; simpl in Heq.
        + right. by subst.
        + left. injection Heq as <- ->. eauto.
      - intros [(s1 & s2 & -> & H1 & H2) | [H1 H2]].
        + by exists (String c s1), s2.
        + by exists "", (String c s). }
    rewrite Hseq. destruct (nullable r1) eqn:Hn.
    + apply nullable_spec in Hn. rewrite lang_alt_inv, Hhead, IH2. tauto.
    + rewrite Hhead. split; [tauto |]. intros [? | [Hn' _]]; [done |].
      apply nullable_spec in Hn'. congruence.
  - by rewrite !lang_alt_inv, IH1, IH2.
  - rewrite lang_seq_inv, lang_star_cons_inv.
    split; intros (s1 & s2 & -> & H1 & H2); exists s1, s2; split_and!; try done;
      by apply IH.
Qed.

(** [test] decides the language of the pattern. *)
Lemma test_spec r s : test r s = true <-> lang r s.
Proof.
  revert r. induction s as [|c s IH]; intros r; simpl.
  - apply nullable_spec.
  - by rewrite IH, deriv_spec.
Qed.

Lemma lang_star_class p s : lang (Star (Class p)) s <-> all_chars p s = true.
Proof.
  induction s as [|c s IH]; simpl.
  - split; [done | constructor].
  - rewrite lang_star_cons_inv, andb_true_iff, <- IH. split.
    + intros (s1 & s2 & -> & (c' & [= <- ->] & Hp)%lang_class_inv & H2). done.
    + intros [Hp H]. exists "", s. split_and!; try done. by constructor.
Qed.

Lemma lang_plus_class p s :
  lang (Plus (Class p)) s <-> s <> "" /\ all_chars p s = true.
Proof.
  unfold Plus. rewrite lang_seq_inv. split.
  - intros (s1 & s2 & -> & (c & -> & Hp)%lang_class_inv & H2%lang_star_class).
    simpl. by rewrite Hp, H2.
  - intros [Hne H]. destruct s as [|c s]; [done |]. simpl in H.
    apply andb_true_iff in H as [Hp H]. exists (String c ""), s.
    split_and!; [done | by constructor | by apply lang_star_class].
Qed.

End RegexFacts.

(** ** Value parsing *)

Section ParseValue.

(** [^\d+$] *)
Lemma test_re_integer s : test re_integer s = true <-> integer_text s.
Proof. unfold re_integer, integer_text. by rewrite test_spec, lang_plus_class. Qed.

(** [^\d*\.\d+$] *)
Lemma test_re_decimal s : test re_decimal s = true <-> decimal_text s.
Proof.
  unfold re_decimal, decimal_text, Chr. rewrite test_spec, lang_seq_inv. split.
  - intros (a & t & -> & Ha%lang_star_class & Ht). apply lang_seq_inv in Ht.
    destruct Ht as (d & b & -> & (c & -> & Hc)%lang_class_inv & Hb%lang_plus_class).
    apply Ascii.eqb_eq in Hc as <-. exists a, b. by destruct Hb.
  - intros (a & b & -> & Ha & Hne & Hb). exists a, (String "." b).
    split_and!; [done | by apply lang_star_class |].
    apply (lang_seq (Class _) _ (String "." "") b).
    + constructor. by apply Ascii.eqb_eq.
    + by apply lang_plus_class.
Qed.

Lemma digit_not_dot c : is_digit c = true -> Ascii.eqb c "." = false.
Proof.
  intros H. destruct (Ascii.eqb c ".") eqn:E; [| done].
  apply Ascii.eqb_eq in E. by subst.
Qed.

Lemma split_dot_decimal a b : digits a -> split_dot (a ++ String "." b) = Some (a, b).
Proof.
  unfold digits. induction a as [|c a IH]; simpl; [done |].
  intros [Hc Ha]%andb_true_iff. by rewrite (digit_not_dot c Hc), IH.
Qed.

Lemma digits_no_dot s : digits s -> split_dot s = None.
Proof.
  unfold digits. induction s as [|c s IH]; simpl; [done |].
  intros [Hc Hs]%andb_true_iff. by rewrite (digit_not_dot c Hc), IH.
Qed.

Lemma decimal_not_integer a b : test re_integer (a ++ String "." b) = false.
Proof.
  apply not_true_is_false. intros [_ H%digits_no_dot]%test_re_integer.
  induction a as [|c a IH]; simpl in H; [done |].
  destruct (Ascii.eqb c "."); [done |]. destruct (split_dot (a ++ String "." b)); [| by apply IH].
  by destruct p.
Qed.

Lemma parseInt_digits s :
  s <> "" -> digits s -> parseInt s = number_of_Z (digits_value s).
Proof.
  intros Hne Hs. unfold parseInt. rewrite Hs. simpl.
  destruct (String.eqb s "") eqn:E; [by apply String.eqb_eq in E | done].
Qed.

Lemma parseFloat_decimal a b :
  digits a -> b <> "" -> digits b ->
  parseFloat (a ++ String "." b)
  = number_of_decimal (digits_value (a ++ b)) (String.length b).
Proof.
  intros Ha Hne Hb. unfold parseFloat. rewrite (split_dot_decimal a b Ha), Ha, Hb. simpl.
  destruct (String.eqb b "") eqn:E; [by apply String.eqb_eq in E | done].
Qed.

Lemma parseValue_integer s :
  s <> "" -> digits s -> parseValue (VStr s) = VNum (number_of_Z (digits_value s)).
Proof.
  intros Hne Hs. unfold parseValue.
  rewrite (proj2 (test_re_integer s) (conj Hne Hs)). by rewrite parseInt_digits.
Qed.

Lemma parseValue_decimal a b :
  digits a -> b <> "" -> digits b ->
  parseValue (VStr (a ++ String "." b))
  = VNum (number_of_decimal (digits_value (a ++ b)) (String.length b)).
Proof.
  intros Ha Hne Hb. unfold parseValue. rewrite decimal_not_integer.
  rewrite (proj2 (test_re_decimal _)) by (exists a, b; done).
  by rewrite parseFloat_decimal.
Qed.

(** A text the two patterns accept starts with a digit or a full stop. *)
Lemma numeric_text_start s :
  test re_integer s = true \/ test re_decimal s = true ->
  exists c rest, s = String c rest /\ (is_digit c = true \/ c = "."%char).
Proof.
  intros [[Hne Hs]%test_re_integer | (a & b & -> & Ha & _)%test_re_decimal].
  - destruct s as [|c s]; [done |]. apply andb_true_iff in Hs as [Hc _]. eauto.
  - destruct a as [|c a]; simpl; [eauto |]. apply andb_true_iff in Ha as [Hc _]. eauto.
Qed.

Lemma lower_char_letter w c :
  w ∈ word_letters -> lower_char c = w <-> c = w \/ c = capital w.
Proof.
  intros Hw. unfold word_letters in Hw.
  repeat (apply elem_of_cons in Hw as [-> | Hw]); [.. | by apply elem_of_nil in Hw];
    (split; [| by intros [-> | ->]]);
    destruct c as [[] [] [] [] [] [] [] []]; vm_compute;
    intros H; first [discriminate H | by left | by right].
Qed.

Lemma toLowerCase_word word s :
  Forall (.∈ word_letters) (list_ascii_of_string word) ->
  toLowerCase s = word <-> equal_ignoring_case word s.
Proof.
  revert s. induction word as [|w word IH]; intros [|c s] Hw; simpl; try done.
  apply Forall_cons in Hw as [Hw Hword]. rewrite <- (IH s Hword), <- (lower_char_letter w c Hw).
  split; [by intros [= -> ->] | by intros [-> ->]].
Qed.

Lemma toLowerCase_true s : toLowerCase s = "true" <-> equal_ignoring_case "true" s.
Proof. apply toLowerCase_word. repeat constructor; word_letter. Qed.

Lemma toLowerCase_false s : toLowerCase s = "false" <-> equal_ignoring_case "false" s.
Proof. apply toLowerCase_word. repeat constructor; word_letter. Qed.

(** A text both patterns reject and that is neither boolean word. *)
Lemma parseValue_other_text s :
  test re_integer s = false -> test re_decimal s = false ->
  toLowerCase s <> "true" -> toLowerCase s <> "false" ->
  parseValue (VStr s) = VStr s.
Proof.
  intros Hi Hd Ht Hf. unfold parseValue. rewrite Hi, Hd.
  destruct (String.eqb (toLowerCase s) "true") eqn:E1; [by apply String.eqb_eq in E1 |].
  destruct (String.eqb (toLowerCase s) "false") eqn:E2; [by apply String.eqb_eq in E2 | done].
Qed.

(** A text that starts like a number is neither boolean word. *)
Lemma number_like_not_boolean c rest :
  is_digit c = true \/ c = "."%char \/ c = "-"%char \/ c = "+"%char ->
  toLowerCase (String c rest) <> "true" /\ toLowerCase (String c rest) <> "false".
Proof.
  intros Hc. simpl.
  split; intros H; injection H as Hl _;
    (apply lower_char_letter in Hl; [| word_letter]);
    destruct Hl as [Hl | Hl]; subst c; vm_compute in Hc;
    destruct Hc as [Hc | [Hc | [Hc | Hc]]]; congruence.
Qed.

Lemma boolean_word_not_numeric s :
  toLowerCase s = "true" \/ toLowerCase s = "false" ->
  test re_integer s = false /\ test re_decimal s = false.
Proof.
  intros H.
  assert (~ (test re_integer s = true \/ test re_decimal s = true)) as Hn.
  { intros (c & rest & -> & Hc)%numeric_text_start.
    destruct (number_like_not_boolean c rest); tauto. }
  split; apply not_true_is_false; tauto.
Qed.

Lemma parseValue_boolean_word s :
  (toLowerCase s = "true" -> parseValue (VStr s) = VBool true)
  /\ (toLowerCase s = "false" -> parseValue (VStr s) = VBool false).
Proof.
  split; intros H; unfold parseValue.
  - destruct (boolean_word_not_numeric s) as [-> ->]; [by left |]. by rewrite H.
  - destruct (boolean_word_not_numeric s) as [-> ->]; [by right |]. by rewrite H.
Qed.

(** A text whose first character is a digit, a full stop or a sign and
    that holds a character other than digits and full stops. *)
Lemma parseValue_number_like c rest :
  is_digit c = true \/ c = "."%char \/ c = "-"%char \/ c = "+"%char ->
  all_chars (fun x => is_digit x || Ascii.eqb x ".") (String c rest) = false ->
  parseValue (VStr (String c rest)) = VStr (String c rest).
Proof.
  intros Hc Hbad.
  assert (forall s, digits s -> all_chars (fun x => is_digit x || Ascii.eqb x ".") s = true) as Hdig.
  { unfold digits. induction s as [|x s IH]; simpl; [done |].
    intros [-> Hs]%andb_true_iff. simpl. by apply IH. }
  destruct (number_like_not_boolean c rest Hc) as [Ht Hf].
  apply parseValue_other_text; [| | done | done].
  - apply not_true_is_false. intros [_ Hs%Hdig]%test_re_integer. congruence.
  - apply not_true_is_false. intros (a & b & Heq & Ha%Hdig & _ & Hb%Hdig)%test_re_decimal.
    rewrite Heq, all_chars_append in Hbad. simpl in Hbad.
    rewrite Ha, Hb in Hbad. done.
Qed.

(** Digits followed by a full stop and nothing more, as in ["5."]. *)
Lemma parseValue_trailing_dot a :
  digits a -> parseValue (VStr (a ++ ".")) = VStr (a ++ ".").
Proof.
  intros Ha.
  assert (exists c rest, a ++ "." = String c rest
            /\ (is_digit c = true \/ c = "."%char \/ c = "-"%char \/ c = "+"%char))
    as (c & rest & Heq & Hc).
  { destruct a as [|c a]; simpl; [eauto 6 |].
    apply andb_true_iff in Ha as [Hc _]. eauto. }
  apply parseValue_other_text.
  - apply decimal_not_integer.
  - apply not_true_is_false. intros (a' & b' & Heq' & Ha' & Hne & _)%test_re_decimal.
    pose proof (split_dot_decimal a "" Ha) as H1.
    pose proof (split_dot_decimal a' b' Ha') as H2.
    rewrite <- Heq', H1 in H2. by injection H2 as _ <-.
  - rewrite Heq. by apply number_like_not_boolean.
  - rewrite Heq. by apply number_like_not_boolean.
Qed.

End ParseValue.

(** ** Integers among the numbers *)

Section ExactIntegers.

Lemma digits2_pos_bounds m :
  2 ^ (Z.pos (digits2_pos m) - 1) <= Z.pos m < 2 ^ Z.pos (digits2_pos m).
Proof.
  induction m as [m IH|m IH|]; simpl digits2_pos.
  - rewrite Pos2Z.inj_succ.
    replace (Z.succ (Z.pos (digits2_pos m)) - 1) with (Z.succ (Z.pos (digits2_pos m) - 1))
      by lia.
    rewrite !Z.pow_succ_r by lia. lia.
  - rewrite Pos2Z.inj_succ.
    replace (Z.succ (Z.pos (digits2_pos m)) - 1) with (Z.succ (Z.pos (digits2_pos m) - 1))
      by lia.
    rewrite !Z.pow_succ_r by lia. lia.
  - simpl. lia.
Qed.

Lemma digits2_pos_le m k : 0 <= k -> Z.pos m < 2 ^ k -> Z.pos (digits2_pos m) <= k.
Proof.
  intros Hk Hm. destruct (digits2_pos_bounds m) as [Hlo _].
  destruct (Z_le_gt_dec (Z.pos (digits2_pos m)) k) as [H|H]; [assumption |].
  exfalso.
  assert (2 ^ k <= 2 ^ (Z.pos (digits2_pos m) - 1)) by (apply Z.pow_le_mono_r; lia). lia.
Qed.

Lemma iter_xO_value m k : Z.pos (Pos.iter xO m k) = Z.pos m * 2 ^ Z.pos k.
Proof.
  revert m. induction k as [|k IH] using Pos.peano_ind; intros m.
  - simpl. lia.
  - rewrite Pos.iter_succ, Pos2Z.inj_succ, Z.pow_succ_r by lia.
    rewrite Pos2Z.inj_xO, IH. lia.
Qed.

Lemma iter_xO_digits m k : digits2_pos (Pos.iter xO m k) = (digits2_pos m + k)%positive.
Proof.
  induction k as [|k IH] using Pos.peano_ind.
  - simpl. lia.
  - rewrite Pos.iter_succ. simpl. rewrite IH. lia.
Qed.

(** A mantissa that already has the exponent of its format is rounded to
    itself. *)
Lemma shr_fexp_canonical m e :
  fexp prec emax (Z.pos (digits2_pos m) + e) = e ->
  shr_fexp prec emax (Z.pos m) e loc_Exact
  = ({| shr_m := Z.pos m; shr_r := false; shr_s := false |}, e).
Proof.
  intros Hc. unfold shr_fexp. simpl Zdigits2.
  change IntDef.Z.add with Z.add. change IntDef.Z.sub with Z.sub.
  rewrite Hc, Z.sub_diag. reflexivity.
Qed.

Lemma binary_round_aux_canonical m e :
  fexp prec emax (Z.pos (digits2_pos m) + e) = e -> e <= emax - prec ->
  binary_round_aux prec emax false (Z.pos m) e loc_Exact = S754_finite false m e.
Proof.
  intros Hc He. unfold binary_round_aux.
  rewrite (shr_fexp_canonical m e Hc).
  cbn [shr_m loc_of_shr_record round_nearest_even].
  rewrite (shr_fexp_canonical m e Hc). cbn [shr_m].
  apply Z.leb_le in He. change IntDef.Z.sub with Z.sub. rewrite He. reflexivity.
Qed.

(** Below 2^53 nothing is rounded away: the binary64 datum of an integer
    is a valid one and is that integer. *)
Lemma binary_normalize_exact (n : Z) :
  0 <= n < 2 ^ 53 ->
  valid_binary (binary_normalize prec emax n 0 false) = true
  /\ integer_of_spec_float (binary_normalize prec emax n 0 false) = Some n.
Proof.
  intros [Hlo Hhi]. destruct n as [|m|m]; [split; reflexivity | | lia].
  pose proof (digits2_pos_le m 53 ltac:(lia) Hhi) as Hd.
  unfold binary_normalize, binary_round.
  assert (fexp prec emax (Z.pos (digits2_pos m) + 0) = Z.pos (digits2_pos m) - 53) as Hfexp.
  { unfold fexp, emin, prec, emax. lia. }
  rewrite Hfexp. unfold shl_align.
  destruct (Z.pos (digits2_pos m) - 53 - 0) as [|q|q] eqn:Hq; [| lia |].
  - rewrite binary_round_aux_canonical; [| rewrite Hfexp; lia | unfold emax, prec; lia].
    split.
    + unfold valid_binary, SpecFloat.valid_binary, bounded, canonical_mantissa.
      rewrite Hfexp. apply andb_true_intro. split; [apply Z.eqb_eq; lia | reflexivity].
    + simpl. f_equal. lia.
  - assert (fexp prec emax (Z.pos (digits2_pos (Pos.iter xO m q)) + (Z.pos (digits2_pos m) - 53))
            = Z.pos (digits2_pos m) - 53) as Hc.
    { rewrite iter_xO_digits. unfold fexp, emin, prec, emax. lia. }
    rewrite binary_round_aux_canonical; [| exact Hc | unfold emax, prec; lia].
    split.
    + unfold valid_binary, SpecFloat.valid_binary, bounded, canonical_mantissa.
      rewrite Hc. apply andb_true_intro. split; [apply Z.eqb_eq; lia |].
      apply Z.leb_le. unfold emax, prec. lia.
    + unfold integer_of_spec_float.
      assert (Z.leb 0 (Z.pos (digits2_pos m) - 53) = false) as -> by (apply Z.leb_gt; lia).
      rewrite iter_xO_value.
      replace (- (Z.pos (digits2_pos m) - 53)) with (Z.pos q) by lia.
      rewrite Z.mod_mul by lia. simpl Z.eqb. cbv iota.
      rewrite Z.div_mul by lia. f_equal; lia.
Qed.

Lemma number_of_Z_exact (n : Z) :
  0 <= n < 2 ^ 53 -> integer_of_number (number_of_Z n) = Some n.
Proof.
  intros H. destruct (binary_normalize_exact n H) as [Hv Hi].
  unfold integer_of_number, number_of_Z. by rewrite Prim2SF_SF2Prim.
Qed.

Lemma digits_value_from_nonneg s : forall acc,
  digits s -> 0 <= acc -> 0 <= digits_value_from acc s.
Proof.
  unfold digits. induction s as [|c s IH]; intros acc Hs Hacc; simpl in *; [done |].
  apply andb_true_iff in Hs as [Hc Hs]. apply IH; [done |].
  unfold is_digit in Hc. apply andb_true_iff in Hc as [Hc _]. apply N.leb_le in Hc. lia.
Qed.

Lemma digits_value_nonneg s : digits s -> 0 <= digits_value s.
Proof. intros Hs. by apply digits_value_from_nonneg. Qed.

End ExactIntegers.

Section ParseValueClaims.

#[local] Set Warnings "-inexact-float".

(** C5, as stated, fails on a long run of digits: the text
    ["9007199254740993"], whose base-10 integer is 2^53 + 1, parses to the
    number 2^53, the same number as the text ["9007199254740992"]. *)
Lemma parseValue_integer_rounds :
  integer_text "9007199254740993"
  /\ digits_value "9007199254740993" = 9007199254740993
  /\ parseValue (VStr "9007199254740993") = VNum 9007199254740992
  /\ integer_of_number 9007199254740992 = Some 9007199254740992
  /\ parseValue (VStr "9007199254740993") = parseValue (VStr "9007199254740992").
Proof.
  split; [split; [discriminate | reflexivity] |].
  split_and!; reflexivity.
Qed.

(** C5, amended: a text of one or more digits parses to the binary64
    number nearest to its base-10 integer, which is that integer when it
    is below 2^53 (["42"] to 42, ["007"] to 7); a text of digits, a full
    stop and one or more digits parses to the binary64 number nearest to
    that decimal ([".5"] to 0.5, ["3.14"] to 3.14); digits with a
    trailing full stop (["5."]), signed texts (["-3"]) and exponent forms
    (["1e5"]) stay the text they are. *)
Theorem parseValue_numeric_text :
  (forall s, integer_text s ->
     parseValue (VStr s) = VNum (number_of_Z (digits_value s)))
  /\ (forall s, integer_text s -> digits_value s < 2 ^ 53 ->
        integer_of_number (number_of_Z (digits_value s)) = Some (digits_value s))
  /\ (forall a b, digits a -> b <> "" -> digits b ->
        parseValue (VStr (a ++ String "." b))
        = VNum (number_of_decimal (digits_value (a ++ b)) (String.length b)))
  /\ parseValue (VStr "42") = VNum 42
  /\ parseValue (VStr "007") = VNum 7
  /\ parseValue (VStr ".5") = VNum 0.5
  /\ parseValue (VStr "3.14") = VNum 3.14
  /\ (forall a, digits a -> parseValue (VStr (a ++ ".")) = VStr (a ++ "."))
  /\ (forall c rest,
        is_digit c = true \/ c = "."%char \/ c = "-"%char \/ c = "+"%char ->
        all_chars (fun x => is_digit x || Ascii.eqb x ".") (String c rest) = false ->
        parseValue (VStr (String c rest)) = VStr (String c rest))
  /\ parseValue (VStr "5.") = VStr "5."
  /\ parseValue (VStr "-3") = VStr "-3"
  /\ parseValue (VStr "1e5") = VStr "1e5".
Proof.
  split_and!; try reflexivity.
  - intros s [Hne Hs]. by apply parseValue_integer.
  - intros s [Hne Hs] Hlt. apply number_of_Z_exact.
    split; [by apply digits_value_nonneg | done].
  - apply parseValue_decimal.
  - apply parseValue_trailing_dot.
  - apply parseValue_number_like.
Qed.

Lemma parseValue_numeric_text_witness :
  (integer_text "2024" /\ digits_value "2024" < 2 ^ 53)
  /\ parseValue (VStr "2024") = VNum (number_of_Z (digits_value "2024"))
  /\ integer_of_number (number_of_Z (digits_value "2024")) = Some (digits_value "2024")
  /\ number_of_Z (digits_value "2024") = 2024%float.
Proof.
  assert (integer_text "2024") as H by (split; [discriminate | reflexivity]).
  assert (digits_value "2024" < 2 ^ 53) as Hlt by reflexivity.
  split; [by split |].
  split; [exact (proj1 parseValue_numeric_text "2024" H) |].
  split; [exact (proj1 (proj2 parseValue_numeric_text) "2024" H Hlt) | reflexivity].
Defined.

(** C6: [null] and [undefined] parse to [null]; a text equal to "true" or
    to "false" up to the case of its letters parses to that boolean;
    everything else is returned as it is -- numbers, booleans, and the
    texts that are neither numeric nor a boolean word. *)
Theorem parseValue_cases :
  parseValue VNull = VNull
  /\ parseValue VUndefined = VNull
  /\ (forall s, equal_ignoring_case "true" s -> parseValue (VStr s) = VBool true)
  /\ (forall s, equal_ignoring_case "false" s -> parseValue (VStr s) = VBool false)
  /\ (forall n, parseValue (VNum n) = VNum n)
  /\ (forall b, parseValue (VBool b) = VBool b)
  /\ (forall s, ~ integer_text s -> ~ decimal_text s ->
        ~ equal_ignoring_case "true" s -> ~ equal_ignoring_case "false" s ->
        parseValue (VStr s) = VStr s).
Proof.
  split_and!; try reflexivity.
  - intros s H%toLowerCase_true. by apply parseValue_boolean_word.
  - intros s H%toLowerCase_false. by apply parseValue_boolean_word.
  - intros s Hi Hd Ht Hf. apply parseValue_other_text.
    + apply not_true_is_false. by rewrite test_re_integer.
    + apply not_true_is_false. by rewrite test_re_decimal.
    + by rewrite toLowerCase_true.
    + by rewrite toLowerCase_false.
Qed.

Lemma parseValue_cases_witness :
  equal_ignoring_case "true" "TrUe" /\ parseValue (VStr "TrUe") = VBool true.
Proof.
  assert (equal_ignoring_case "true" "TrUe") as H.
  { simpl. repeat split; (by left) || (by right). }
  split; [exact H |].
  exact (proj1 (proj2 (proj2 parseValue_cases)) "TrUe" H).
Defined.

End ParseValueClaims.

(** ** Header validation *)

Section HeaderValidation.

Lemma trim_end_empty s : trim_end s = "" <-> all_chars is_white_space s = true.
Proof.
  induction s as [|c s IH]; simpl; [done |].
  rewrite andb_true_iff, <- IH.
  destruct (trim_end s); destruct (is_white_space c); naive_solver.
Qed.

Lemma trim_start_all s :
  all_chars is_white_space (trim_start s) = all_chars is_white_space s.
Proof.
  induction s as [|c s IH]; simpl; [done |].
  destruct (is_white_space c) eqn:E; simpl; [done | by rewrite E].
Qed.

(** A text trims to the empty text exactly when it is white space only. *)
Lemma trim_empty s : trim s = "" <-> all_chars is_white_space s = true.
Proof. unfold trim. by rewrite trim_end_empty, trim_start_all. Qed.

Lemma validateHeaders_loop_spec cells : forall seen,
  validateHeaders_loop seen cells = true <->
  exists texts : list string,
    cells = VStr <$> texts
    /\ Forall (fun text => trim text <> "") texts
    /\ NoDup texts
    /\ (forall text, text ∈ texts -> text ∉ seen).
Proof.
  induction cells as [|cell cells IH]; intros seen.
  - simpl. split; [| done]. intros _. exists []. split_and!; try done; [constructor | set_solver].
  - assert (forall texts : list string, cell :: cells = VStr <$> texts ->
              exists text rest, texts = text :: rest /\ cell = VStr text /\ cells = VStr <$> rest)
      as Hshape.
    { intros [|text rest] [= ]. eauto. }
    destruct cell as [| | | |header| |]; simpl;
      try (split; [done | intros (texts & (? & ? & _ & ? & _)%Hshape & _); done]).
    destruct (String.eqb (trim header) "") eqn:Etrim.
    { apply String.eqb_eq in Etrim. split; [done |].
      intros (texts & (text & rest & -> & [= <-] & _)%Hshape & Hne & _).
      by apply Forall_cons in Hne as [? _]. }
    apply String.eqb_neq in Etrim.
    case_bool_decide as Hseen.
    { split; [done |].
      intros (texts & (text & rest & -> & [= <-] & _)%Hshape & _ & _ & Hfresh).
      destruct (Hfresh header); [left | done]. }
    rewrite IH. split.
    + intros (rest & -> & Hne & Hnd & Hfresh). exists (header :: rest).
      split_and!; [done | by constructor | | ].
      * constructor; [| done]. intros Hin. apply (Hfresh header Hin). set_solver.
      * intros text [-> | Hin]%elem_of_cons; [done |].
        intros ?. apply (Hfresh text Hin). set_solver.
    + intros (texts & (text & rest & -> & [= <-] & ->)%Hshape & Hne & Hnd & Hfresh).
      apply Forall_cons in Hne as [_ Hne]. apply NoDup_cons in Hnd as [Hnotin Hnd].
      exists rest. split_and!; try done.
      intros text Hin [->%elem_of_singleton | Hs]%elem_of_union; [done |].
      apply (Hfresh text); [by right | done].
Qed.

(** [validateHeaders] accepts exactly the valid header rows. *)
Lemma validateHeaders_spec headers :
  validateHeaders headers = true <-> valid_header_row headers.
Proof.
  unfold valid_header_row. destruct headers as [| | | | |cells|]; simpl;
    try (split; [done | by intros (? & ? & _)]).
  rewrite validateHeaders_loop_spec. split.
  - intros (texts & -> & ? & ? & _). eauto.
  - intros (texts & [= ->] & ? & ?). exists texts. split_and!; done.
Qed.

Lemma validateHeaders_false headers :
  validateHeaders headers = false <-> ~ valid_header_row headers.
Proof.
  rewrite <- validateHeaders_spec. destruct (validateHeaders headers); naive_solver.
Qed.

End HeaderValidation.

(** ** Loops that may throw *)

Section Loops.

Context {A B : Type}.

Lemma map_throwing_returns (f : A -> outcome B) items ys :
  map_throwing f items = Returns ys <-> Forall2 (fun x y => f x = Returns y) items ys.
Proof.
  revert ys. induction items as [|x items IH]; intros ys; simpl.
  - split; [intros [= <-]; constructor | by inversion 1].
  - destruct (f x) as [y|e] eqn:Ex; simpl.
    + destruct (map_throwing f items) as [ys'|e] eqn:Em; simpl.
      * split.
        -- intros [= <-]. constructor; [done | by apply IH].
        -- inversion 1 as [|? y' ? ys'' Hy Hrest]; subst.
           apply IH in Hrest. congruence.
      * split; [done |]. inversion 1 as [|? y' ? ys'' Hy Hrest]; subst.
        by apply IH in Hrest.
    + split; [done |]. inversion 1; subst. congruence.
Qed.

Lemma map_throwing_throws (f : A -> outcome B) items e :
  map_throwing f items = Throws e <->
  exists before x after,
    items = (before ++ x :: after)%list
    /\ Forall (fun x' => exists y, f x' = Returns y) before
    /\ f x = Throws e.
Proof.
  induction items as [|x items IH]; simpl.
  - split; [done |]. by intros ([|??] & ? & ? & ? & _).
  - split.
    + destruct (f x) as [y|e'] eqn:Ex; simpl.
      * destruct (map_throwing f items) as [ys|e'] eqn:Em; simpl; [done |].
        intros [= ->]. destruct (proj1 IH eq_refl) as (before & x' & after & -> & ? & ?).
        exists (x :: before), x', after. split_and!; [done | | done].
        constructor; eauto.
      * intros [= ->]. exists [], x, items. by split_and!.
    + intros (before & x' & after & Heq & Hbefore & Hx').
      destruct before as [|b before]; simpl in Heq; injection Heq as <- ->.
      * by rewrite Hx'.
      * apply Forall_cons in Hbefore as [[y Hy] Hbefore]. rewrite Hy. simpl.
        rewrite (proj2 IH); [done |]. eauto 6.
Qed.

Lemma map_throwing_ext (f g : A -> outcome B) items :
  (forall x, x ∈ items -> f x = g x) -> map_throwing f items = map_throwing g items.
Proof.
  induction items as [|x items IH]; intros H; simpl; [done |].
  rewrite (H x), IH; [done | | left]. intros ??. apply H. by right.
Qed.

Lemma reduce_from_ext (f g : B -> A -> nat -> B) items : forall i acc,
  (forall j acc' x, items !! (j - i)%nat = Some x -> (i <= j)%nat -> f acc' x j = g acc' x j) ->
  reduce_from f i items acc = reduce_from g i items acc.
Proof.
  induction items as [|x items IH]; intros i acc H; simpl; [done |].
  rewrite (H i acc x); [| by rewrite Nat.sub_diag | done].
  apply IH. intros j acc' y Hy Hj. apply H; [| lia].
  replace (j - i)%nat with (S (j - S i)) by lia. done.
Qed.

Lemma reduce_from_app (f : B -> A -> nat -> B) front back : forall i acc,
  reduce_from f i (front ++ back)%list acc
  = reduce_from f (i + length front) back (reduce_from f i front acc).
Proof.
  induction front as [|x front IH]; intros i acc; simpl.
  - by rewrite Nat.add_0_r.
  - rewrite IH. f_equal. lia.
Qed.

Lemma reduce_from_id (f : B -> A -> nat -> B) items : forall i acc,
  (forall j acc' x, (i <= j)%nat -> f acc' x j = acc') ->
  reduce_from f i items acc = acc.
Proof.
  induction items as [|x items IH]; intros i acc H; simpl; [done |].
  rewrite H by done. apply IH. intros j acc' y Hj. apply H. lia.
Qed.

End Loops.

(** ** The conversion loop *)

Section Conversion.

Variable callback : jsval -> gmap string jsval -> jsval -> nat -> gmap string jsval.

Lemma convert_sheet_records result entry :
  convert_sheet callback result entry
  = (records <- sheet_records callback entry ;; Returns (assign entry.1 records result)).
Proof.
  destruct entry as [sheet data]. unfold convert_sheet, sheet_records. simpl.
  destruct data as [| | | | |[|headers [|row rows]]|]; try done.
  by destruct (validateHeaders headers).
Qed.

Lemma for_each_convert_sheet items : forall result,
  for_each (convert_sheet callback) items result
  = (recordss <- map_throwing (sheet_records callback) items ;;
     Returns (assign_all result (zip items.*1 recordss))).
Proof.
  induction items as [|entry items IH]; intros result; simpl; [done |].
  rewrite convert_sheet_records.
  destruct (sheet_records callback entry) as [records|e]; simpl; [| done].
  rewrite IH. by destruct (map_throwing (sheet_records callback) items).
Qed.

(** The loop runs over the entries of the input, unless the guard
    returns first; then the input has no entry, or is a text, whose
    entries are its characters. *)
Lemma loop_entries_cases x :
  loop_entries x = entries x
  \/ (loop_entries x = [] /\ Forall (fun entry => exists s, entry.2 = VStr s) (entries x)).
Proof.
  unfold loop_entries, nothing_to_convert, keys.
  destruct x as [| |b|n|s|items|props]; simpl; try (left; by repeat case_match).
  - right. split; [by rewrite orb_true_r |].
    apply Forall_forall. intros entry (i & c & -> & _)%elem_of_lookup_imap_1. by eexists.
  - left. by destruct items.
  - left. by destruct props.
Qed.

Lemma loop_entries_object x : typeof x = "object" -> loop_entries x = entries x.
Proof.
  unfold loop_entries, nothing_to_convert, keys.
  destruct x as [| |b|n|s|items|props]; simpl; try done.
  - by destruct items.
  - by destruct props.
Qed.

Lemma loop_entries_elem x entry :
  entry ∈ entries x -> (forall s, entry.2 <> VStr s) -> loop_entries x = entries x.
Proof.
  intros Hin Hdata. destruct (loop_entries_cases x) as [H | [_ H]]; [done |].
  rewrite Forall_forall in H. destruct (H entry Hin) as [s Hs]. by destruct (Hdata s).
Qed.

Lemma loop_entries_subseteq x entry : entry ∈ loop_entries x -> entry ∈ entries x.
Proof.
  destruct (loop_entries_cases x) as [-> | [-> _]]; [done |]. by intros ?%elem_of_nil.
Qed.

Lemma sheet_records_text sheet s : sheet_records callback (sheet, VStr s) = Returns [].
Proof. reflexivity. Qed.

Lemma convert_with_loop x :
  convert_with callback x = for_each (convert_sheet callback) (loop_entries x) ∅.
Proof. unfold convert_with, loop_entries. by destruct (nothing_to_convert x). Qed.

(** The converter maps [sheet_records] over the entries of the loop and
    assigns the results in turn. *)
Lemma convert_with_records x :
  convert_with callback x
  = (recordss <- map_throwing (sheet_records callback) (loop_entries x) ;;
     Returns (assign_all ∅ (zip (loop_entries x).*1 recordss))).
Proof. rewrite convert_with_loop. apply for_each_convert_sheet. Qed.

Lemma map_throwing_texts (items : list (string * jsval)) e :
  Forall (fun entry => exists s, entry.2 = VStr s) items ->
  map_throwing (sheet_records callback) items <> Throws e.
Proof.
  intros Hall (before & [sheet data] & after & -> & _ & Hthrow)%map_throwing_throws.
  rewrite Forall_forall in Hall. destruct (Hall (sheet, data)) as [s Hs]; [set_solver |].
  simpl in Hs. subst. by rewrite sheet_records_text in Hthrow.
Qed.

Lemma convert_with_throws x e :
  convert_with callback x = Throws e
  <-> map_throwing (sheet_records callback) (entries x) = Throws e.
Proof.
  rewrite convert_with_records.
  destruct (loop_entries_cases x) as [-> | [-> Htexts]].
  - destruct (map_throwing (sheet_records callback) (entries x)); simpl.
    + split; intros H; discriminate H.
    + split; intros [= ->]; reflexivity.
  - simpl. split; [done |]. intros H. by apply map_throwing_texts in H.
Qed.

Lemma convert_with_returns x result :
  convert_with callback x = Returns result
  <-> exists recordss,
        Forall2 (fun entry records => sheet_records callback entry = Returns records)
          (loop_entries x) recordss
        /\ result = assign_all ∅ (zip (loop_entries x).*1 recordss).
Proof.
  rewrite convert_with_records.
  destruct (map_throwing (sheet_records callback) (loop_entries x)) as [recordss|e] eqn:E; simpl.
  - apply map_throwing_returns in E. split.
    + intros [= <-]. eauto.
    + intros (recordss' & H & ->). do 2 f_equal.
      apply map_throwing_returns in E, H. congruence.
  - split; [done |]. intros (recordss' & H%map_throwing_returns & _). congruence.
Qed.


Lemma sheet_records_offending sheet data :
  offending_sheet data ->
  sheet_records callback (sheet, data) = Throws (Error (invalid_headers_message sheet)).
Proof.
  intros (headers & rows & -> & Hrows & Hbad%validateHeaders_false).
  unfold sheet_records. simpl. destruct rows as [|row rows]; [done |]. by rewrite Hbad.
Qed.

Lemma reduce_rows_return headers rows :
  Forall is_array rows ->
  exists recordss,
    map_throwing (reduce_row (callback headers)) rows = Returns recordss
    /\ Forall2 (fun row record =>
                  exists cells, row = VArr cells /\ record = reduce (callback headers) cells ∅)
         rows recordss.
Proof.
  induction 1 as [|row rows [cells ->] _ (recordss & IH1 & IH2)]; simpl.
  - exists []. split; [done | constructor].
  - rewrite IH1. simpl. eexists. split; [done |]. constructor; eauto.
Qed.

(** The rows throw nothing but the [TypeError] of a row that is no
    sequence. *)
Lemma reduce_rows_throw headers rows e :
  map_throwing (reduce_row (callback headers)) rows = Throws e -> e = TypeError.
Proof.
  intros (before & row & after & _ & _ & Hrow)%map_throwing_throws.
  destruct row; simpl in Hrow; congruence.
Qed.

(** The error of a sheet is the one of its header row. *)
Lemma sheet_records_error sheet data message :
  sheet_records callback (sheet, data) = Throws (Error message) ->
  offending_sheet data /\ message = invalid_headers_message sheet.
Proof.
  unfold sheet_records. cbn [fst snd].
  destruct data as [| | | | |[|headers [|row rows]]|]; try done.
  destruct (validateHeaders headers) eqn:Hv; cbn [negb].
  - by intros ?%reduce_rows_throw.
  - intros [= <-]. split; [| done]. exists headers, (row :: rows).
    split_and!; [done | done | by apply validateHeaders_false].
Qed.

(** With data rows that are sequences, the only exception of a sheet is
    the one of its header row. *)
Lemma sheet_records_throws sheet data e :
  (forall headers rows, data = VArr (headers :: rows) -> Forall is_array rows) ->
  sheet_records callback (sheet, data) = Throws e ->
  offending_sheet data /\ e = Error (invalid_headers_message sheet).
Proof.
  intros Hrows. unfold sheet_records. cbn [fst snd].
  destruct data as [| | | | |[|headers [|row rows]]|]; try done.
  destruct (validateHeaders headers) eqn:Hv; cbn [negb].
  - destruct (reduce_rows_return headers (row :: rows)) as (recordss & Hr & _); [by eapply Hrows |].
    rewrite Hr. done.
  - intros [= <-]. split; [| done]. exists headers, (row :: rows).
    split_and!; [done | done | by apply validateHeaders_false].
Qed.

(** A sheet with a valid header row and data rows that are sequences
    yields the record of each data row, in order. *)
Lemma sheet_records_valid sheet headers rows :
  rows <> [] -> valid_header_row headers -> Forall is_array rows ->
  exists recordss,
    sheet_records callback (sheet, VArr (headers :: rows)) = Returns recordss
    /\ Forall2 (fun row record =>
                  exists cells, row = VArr cells /\ record = reduce (callback headers) cells ∅)
         rows recordss.
Proof.
  intros Hne Hv%validateHeaders_spec Hrows. unfold sheet_records. cbn [fst snd].
  destruct rows as [|row rows]; [done |]. rewrite Hv. cbn [negb].
  by apply reduce_rows_return.
Qed.

Lemma assign_proto {A : Type} (v : A) (obj : gmap string A) :
  assign "__proto__" v obj = obj.
Proof. reflexivity. Qed.

Lemma assign_insert {A : Type} key (v : A) (obj : gmap string A) :
  key <> "__proto__" -> assign key v obj = <[key := v]> obj.
Proof.
  intros Hkey. unfold assign.
  destruct (String.eqb key "__proto__") eqn:E; [by apply String.eqb_eq in E | done].
Qed.

Lemma assign_cases {A : Type} key (v : A) (obj : gmap string A) :
  (key = "__proto__" /\ assign key v obj = obj)
  \/ (key <> "__proto__" /\ assign key v obj = <[key := v]> obj).
Proof.
  destruct (decide (key = "__proto__")) as [-> | Hkey]; [by left |].
  right. by rewrite assign_insert.
Qed.

Lemma assign_lookup_ne {A : Type} key (v : A) (obj : gmap string A) k :
  k <> key -> assign key v obj !! k = obj !! k.
Proof.
  intros Hk. destruct (assign_cases key v obj) as [[_ ->] | [_ ->]]; [done |].
  by rewrite lookup_insert_ne.
Qed.

Lemma assign_lookup_eq {A : Type} key (v : A) (obj : gmap string A) :
  key <> "__proto__" -> assign key v obj !! key = Some v.
Proof. intros Hkey. rewrite assign_insert by done. apply lookup_insert_eq. Qed.

Lemma own_names_cons name names :
  own_names (name :: names)
  = (if decide (name = "__proto__") then ∅ else {[name]}) ∪ own_names names.
Proof.
  unfold own_names. rewrite filter_cons.
  destruct (decide (name = "__proto__")) as [-> | Hne].
  - rewrite decide_False by (intros H; by apply H). set_solver.
  - rewrite decide_True by done. set_solver.
Qed.

Lemma elem_of_own_names name names :
  name ∈ own_names names <-> name ∈ names /\ name <> "__proto__".
Proof. unfold own_names. rewrite elem_of_list_to_set, list_elem_of_filter. tauto. Qed.

Lemma dom_assign {A : Type} key (v : A) (obj : gmap string A) :
  dom (assign key v obj) = dom obj ∪ own_names [key].
Proof.
  rewrite own_names_cons.
  destruct (assign_cases key v obj) as [[-> ->] | [Hkey ->]].
  - rewrite decide_True by done. set_solver.
  - rewrite decide_False by done. rewrite dom_insert_L. set_solver.
Qed.

Lemma assign_all_lookup_notin items : forall (result : JsonSheetData) sheet,
  sheet ∉ items.*1 -> assign_all result items !! sheet = result !! sheet.
Proof.
  induction items as [|[k v] items IH]; intros result sheet Hnotin; simpl; [done |].
  apply not_elem_of_cons in Hnotin as [Hne Hnotin].
  unfold assign_all in *. simpl. rewrite IH by done. by rewrite assign_lookup_ne.
Qed.

Lemma assign_all_lookup_proto items : forall result : JsonSheetData,
  assign_all result items !! "__proto__" = result !! "__proto__".
Proof.
  induction items as [|[k v] items IH]; intros result; simpl; [done |].
  unfold assign_all in *. simpl. rewrite IH.
  destruct (assign_cases k v result) as [[_ ->] | [Hk ->]]; [done |].
  by rewrite lookup_insert_ne.
Qed.

Lemma assign_all_lookup items : forall (result : JsonSheetData) sheet records,
  NoDup items.*1 -> (sheet, records) ∈ items -> sheet <> "__proto__" ->
  assign_all result items !! sheet = Some records.
Proof.
  induction items as [|[k v] items IH]; intros result sheet records Hnd Hin Hsheet; simpl.
  - by apply elem_of_nil in Hin.
  - apply NoDup_cons in Hnd as [Hk Hnd]. apply elem_of_cons in Hin as [[= -> ->] | Hin].
    + change (assign_all (assign k v result) items !! k = Some v).
      rewrite assign_all_lookup_notin by done. by apply assign_lookup_eq.
    + by apply IH.
Qed.

End Conversion.

(** ** Rows to records *)

Section Rows.

Lemma index_texts (texts : list string) i :
  index (VArr (VStr <$> texts)) i
  = match texts !! i with Some text => VStr text | None => VUndefined end.
Proof. simpl. rewrite list_lookup_fmap. by destruct (texts !! i). Qed.

Lemma index_past_end headers i :
  (length (header_cells headers) <= i)%nat -> index headers i = VUndefined.
Proof.
  destruct headers as [| | | | |cells|]; simpl; try done.
  intros H. by rewrite lookup_ge_None_2.
Qed.

Lemma Ts_callback_past_end headers obj value i :
  (length (header_cells headers) <= i)%nat -> Ts.callback headers obj value i = obj.
Proof. intros H. unfold Ts.callback. by rewrite index_past_end. Qed.

Lemma Js_callback_past_end headers obj value i :
  (length (header_cells headers) <= i)%nat -> Js.callback headers obj value i = obj.
Proof. intros H. unfold Js.callback. by rewrite index_past_end. Qed.

Lemma Js_callback_texts (texts : list string) obj value i :
  Js.callback (VArr (VStr <$> texts)) obj value i
  = match texts !! i with
    | Some text => assign text (parseValue value) obj
    | None => obj
    end.
Proof. unfold Js.callback. rewrite index_texts. by destruct (texts !! i). Qed.

Lemma Unguarded_callback_texts (texts : list string) obj value i :
  Unguarded.callback (VArr (VStr <$> texts)) obj value i
  = match texts !! i with
    | Some text => assign text (parseValue value) obj
    | None => assign "undefined" (parseValue value) obj
    end.
Proof. unfold Unguarded.callback. rewrite index_texts. by destruct (texts !! i). Qed.

(** Cells past the end of the header row leave the record as it is. *)
Lemma record_of_take callback headers cells :
  (forall obj value i,
     (length (header_cells headers) <= i)%nat -> callback headers obj value i = obj) ->
  record_of callback headers cells
  = record_of callback headers (take (length (header_cells headers)) cells).
Proof.
  intros Hpast. unfold record_of, reduce.
  destruct (decide (length cells <= length (header_cells headers))%nat) as [Hle | Hgt].
  { by rewrite take_ge. }
  rewrite <- (take_drop (length (header_cells headers)) cells) at 1.
  rewrite reduce_from_app. apply reduce_from_id.
  intros j acc x Hj. apply Hpast. rewrite length_take in Hj. lia.
Qed.

Lemma header_texts_fmap (texts : list string) :
  header_texts (VArr (VStr <$> texts)) = texts.
Proof.
  unfold header_texts. simpl. induction texts as [|t texts IH]; csimpl; [done |].
  by f_equal.
Qed.

(** The keys of a record of the JavaScript copy: the header texts at the
    positions the row has, but for ["__proto__"]. *)
Lemma Js_reduce_dom (texts : list string) cells : forall i (acc : gmap string jsval),
  dom (reduce_from (Js.callback (VArr (VStr <$> texts))) i cells acc)
  = dom acc ∪ own_names (take (length cells) (drop i texts)).
Proof.
  induction cells as [|cell cells IH]; intros i acc; simpl.
  - unfold own_names. set_solver.
  - rewrite IH, Js_callback_texts. destruct (texts !! i) as [text|] eqn:Hi.
    + rewrite (drop_S _ _ _ Hi). simpl. rewrite dom_assign, !own_names_cons. set_solver.
    + apply lookup_ge_None in Hi. rewrite !drop_ge by lia. by rewrite take_nil.
Qed.

Lemma Js_record_keys (texts : list string) cells :
  dom (record_of Js.callback (VArr (VStr <$> texts)) cells)
  = own_names (take (length cells) texts).
Proof.
  unfold record_of, reduce. rewrite Js_reduce_dom, drop_0, dom_empty_L. set_solver.
Qed.

(** The keys of a record of the TypeScript source: no other than
    "string". *)
Lemma Ts_reduce_dom headers cells : forall i (acc : gmap string jsval),
  dom (reduce_from (Ts.callback headers) i cells acc) ⊆ dom acc ∪ {["string"]}.
Proof.
  induction cells as [|cell cells IH]; intros i acc; simpl; [set_solver |].
  etrans; [apply IH |]. unfold Ts.callback.
  destruct (index headers i) as [| | | |header| |]; try set_solver.
  destruct (String.eqb header "string") eqn:E; [| set_solver].
  apply String.eqb_eq in E as ->. rewrite assign_insert by done. rewrite dom_insert_L.
  set_solver.
Qed.

Lemma Ts_record_keys headers cells :
  dom (record_of Ts.callback headers cells) ⊆ {["string"]}.
Proof.
  unfold record_of, reduce. etrans; [apply Ts_reduce_dom |].
  rewrite dom_empty_L. set_solver.
Qed.

End Rows.

(** ** Exceptions of the converter *)

Section Exceptions.

Variable callback : jsval -> gmap string jsval -> jsval -> nat -> gmap string jsval.

Lemma convert_with_error_offending x message :
  convert_with callback x = Throws (Error message) ->
  exists sheet data,
    (sheet, data) ∈ entries x /\ offending_sheet data
    /\ message = invalid_headers_message sheet.
Proof.
  intros (before & [sheet data] & after & Heq & _ & Hthrow)%convert_with_throws%map_throwing_throws.
  assert ((sheet, data) ∈ entries x) as Hin by (rewrite Heq; set_solver).
  apply sheet_records_error in Hthrow as [Hbad ->]. eauto.
Qed.

Lemma convert_with_throws_offending x e :
  data_rows_are_arrays x ->
  convert_with callback x = Throws e ->
  exists sheet data,
    (sheet, data) ∈ entries x /\ offending_sheet data
    /\ e = Error (invalid_headers_message sheet).
Proof.
  intros Hrows (before & [sheet data] & after & Heq & _ & Hthrow)%convert_with_throws%map_throwing_throws.
  assert ((sheet, data) ∈ entries x) as Hin by (rewrite Heq; set_solver).
  apply sheet_records_throws in Hthrow as [Hbad ->]; [by eauto |].
  intros headers rows ->. by eapply Hrows.
Qed.

Lemma convert_with_offending_throws x sheet data :
  (sheet, data) ∈ entries x -> offending_sheet data ->
  exists e, convert_with callback x = Throws e.
Proof.
  intros Hin Hbad.
  destruct (map_throwing (sheet_records callback) (entries x)) as [recordss|e] eqn:E.
  - apply map_throwing_returns in E.
    apply list_elem_of_lookup in Hin as [i Hi].
    destruct (Forall2_lookup_l _ _ _ _ _ E Hi) as (records & _ & Hrec).
    by rewrite (sheet_records_offending callback sheet data Hbad) in Hrec.
  - exists e. by apply convert_with_throws.
Qed.


(** What a returning loop over [items] leaves under the name of one of
    them: what the assignment for that item alone leaves. *)
Lemma for_each_lookup items sheet data (result : JsonSheetData) :
  NoDup items.*1 -> (sheet, data) ∈ items ->
  for_each (convert_sheet callback) items ∅ = Returns result ->
  exists records,
    sheet_records callback (sheet, data) = Returns records
    /\ result !! sheet = assign sheet records ∅ !! sheet.
Proof.
  intros Hnd Hin. rewrite for_each_convert_sheet.
  destruct (map_throwing (sheet_records callback) items) as [recordss|e] eqn:E; [| done].
  simpl. intros [= <-]. apply map_throwing_returns in E.
  apply list_elem_of_lookup in Hin as [i Hi].
  destruct (Forall2_lookup_l _ _ _ _ _ E Hi) as (records & Hrecs & Hrec).
  exists records. split; [done |].
  destruct (decide (sheet = "__proto__")) as [-> | Hsheet].
  { by rewrite assign_all_lookup_proto, assign_proto. }
  rewrite assign_lookup_eq by done.
  assert (length items.*1 = length recordss) as Hlen
    by (rewrite length_fmap; by eapply Forall2_length).
  apply assign_all_lookup; [| | done].
  - rewrite fst_zip by lia. done.
  - apply list_elem_of_lookup. exists i. rewrite lookup_zip_with.
    rewrite list_lookup_fmap, Hi. simpl. by rewrite Hrecs.
Qed.

Lemma convert_with_lookup x sheet data result :
  NoDup (keys x) -> (sheet, data) ∈ entries x -> loop_entries x = entries x ->
  convert_with callback x = Returns result ->
  exists records,
    sheet_records callback (sheet, data) = Returns records
    /\ result !! sheet = assign sheet records ∅ !! sheet.
Proof.
  intros Hnd Hin Hloop. rewrite convert_with_loop, Hloop. by apply for_each_lookup.
Qed.




End Exceptions.

(** C4: the conversion throws the error that names a sheet only when
    that sheet has at least two rows and an invalid header row (not a
    sequence, a cell that is not a text, a text empty after trimming, or
    two cells with the same untrimmed text), and then returns no result;
    and on a sheet set whose data rows are sequences it throws exactly
    when there is such a sheet.  Texts that differ by surrounding white
    space (" Name" and "Name") are different headers. *)
Theorem convertToJson_invalid_headers (x : jsval) :
  (forall message, Ts.convertToJson x = Throws (Error message) ->
     (forall result, Ts.convertToJson x <> Returns result)
     /\ exists sheet data,
          (sheet, data) ∈ entries x /\ offending_sheet data
          /\ message = invalid_headers_message sheet)
  /\ (data_rows_are_arrays x ->
      ((exists e, Ts.convertToJson x = Throws e)
       <-> (exists sheet data, (sheet, data) ∈ entries x /\ offending_sheet data))
      /\ forall e, Ts.convertToJson x = Throws e ->
           exists sheet data,
             (sheet, data) ∈ entries x /\ offending_sheet data
             /\ e = Error (invalid_headers_message sheet))
  /\ valid_header_row (VArr [VStr " Name"; VStr "Name"]).
Proof.
  split_and!.
  - intros message He. split; [congruence |].
    by apply (convert_with_error_offending Ts.callback).
  - intros Hrows. split; [split |].
    + intros [e (sheet & data & ? & ? & _)%convert_with_throws_offending]; eauto.
    + intros (sheet & data & Hin & Hbad). by eapply convert_with_offending_throws.
    + intros e He. by apply (convert_with_throws_offending Ts.callback).
  - by apply validateHeaders_spec.
Qed.

Lemma duplicate_headers_sheet_rows : data_rows_are_arrays duplicate_headers_sheet.
Proof.
  intros sheet headers rows Hin. simpl in Hin.
  repeat (apply elem_of_cons in Hin as [Hin | Hin];
          [injection Hin as -> -> ->; repeat constructor; eexists; reflexivity |]).
  by apply elem_of_nil in Hin.
Qed.

Lemma convertToJson_invalid_headers_witness :
  data_rows_are_arrays duplicate_headers_sheet
  /\ Ts.convertToJson duplicate_headers_sheet
     = Throws (Error "Invalid or duplicate headers in sheet: Bad")
  /\ exists sheet data,
       (sheet, data) ∈ entries duplicate_headers_sheet /\ offending_sheet data.
Proof.
  split; [exact duplicate_headers_sheet_rows |].
  split; [reflexivity |].
  apply (proj1 (proj1 (proj1 (proj2 (convertToJson_invalid_headers duplicate_headers_sheet))
                         duplicate_headers_sheet_rows))).
  eexists. reflexivity.
Defined.




(** ** Records and header keys *)

Section RecordKeys.

(** The JavaScript copy on a sheet with a valid header row: one record
    per data row, whose keys are the header texts at the positions the
    row has, but for "__proto__". *)
Lemma Js_sheet_records_keys sheet (texts : list string) rows :
  rows <> [] -> valid_header_row (VArr (VStr <$> texts)) -> Forall is_array rows ->
  exists recordss,
    sheet_records Js.callback (sheet, VArr (VArr (VStr <$> texts) :: rows)) = Returns recordss
    /\ Forall2 (fun row (record : gmap string jsval) =>
                  exists cells,
                    row = VArr cells
                    /\ dom record = own_names (take (length cells) texts))
         rows recordss.
Proof.
  intros Hne Hv Hrows.
  destruct (sheet_records_valid Js.callback sheet _ rows Hne Hv Hrows) as (recordss & Hr & Hall).
  exists recordss. split; [done |].
  eapply Forall2_impl; [exact Hall |]. intros row record (cells & -> & ->).
  exists cells. split; [done |]. apply Js_record_keys.
Qed.

(** X7: in the JavaScript copy, on a sheet set whose sheets all have at
    least two rows and a valid header row, the conversion returns, and maps
    each sheet not named "__proto__" to one record per data row, whose keys
    are the header texts of the row's positions other than "__proto__"
    (under that name an assignment defines no own property). *)
Lemma Js_convertToJson_record_keys x :
  NoDup (keys x) -> data_rows_are_arrays x ->
  (forall sheet data, (sheet, data) ∈ entries x ->
     exists headers rows,
       data = VArr (headers :: rows) /\ rows <> [] /\ valid_header_row headers) ->
  exists result,
    Js.convertToJson x = Returns result
    /\ forall sheet headers rows,
         (sheet, VArr (headers :: rows)) ∈ entries x ->
         sheet <> "__proto__" ->
         exists recordss,
           result !! sheet = Some recordss
           /\ Forall2 (fun row (record : gmap string jsval) =>
                         exists cells,
                           row = VArr cells
                           /\ dom record
                              = own_names (take (length cells) (header_texts headers)))
                rows recordss.
Proof.
  intros Hnd Hrows Hvalid. unfold Js.convertToJson.
  destruct (convert_with Js.callback x) as [result|e] eqn:E.
  - exists result. split; [done |]. intros sheet headers rows Hin Hsheet.
    assert (loop_entries x = entries x) as Hloop
      by (by apply (loop_entries_elem x _ Hin)).
    destruct (convert_with_lookup Js.callback x sheet _ result Hnd Hin Hloop E)
      as (recordss & Hrec & Hlook).
    rewrite assign_lookup_eq in Hlook by done.
    exists recordss. split; [done |].
    destruct (Hvalid sheet _ Hin) as (headers' & rows' & [= <- <-] & Hne & Hv).
    pose proof Hv as (texts & -> & _).
    destruct (Js_sheet_records_keys sheet texts rows Hne Hv (Hrows _ _ _ Hin))
      as (recordss' & Hrec' & Hall).
    rewrite header_texts_fmap. congruence.
  - apply convert_with_throws_offending in E as (sheet & data & Hin & Hbad & _); [| done].
    destruct Hbad as (headers & rows & -> & _ & Hbad).
    destruct (Hvalid sheet _ Hin) as (headers' & rows' & [= <- <-] & _ & Hv). done.
Qed.

End RecordKeys.

(** C1, on the TypeScript source: the records have no key but "string",
    so the sheet [{"Sheet1": [["Name"], ["Alice"]]}] converts to one record
    without the key "Name"; the JavaScript copy converts it to the record
    with that key. *)
Theorem Ts_convertToJson_loses_header_keys :
  Ts.convertToJson name_sheet = Returns {[ "Sheet1" := [∅] ]}
  /\ Js.convertToJson name_sheet = Returns {[ "Sheet1" := [ {[ "Name" := VStr "Alice" ]} ] ]}
  /\ forall headers cells, dom (record_of Ts.callback headers cells) ⊆ {["string"]}.
Proof. split_and!; [reflexivity | reflexivity | apply Ts_record_keys]. Qed.

(** C3, on the TypeScript source: the example sheet converts to two
    empty records; the JavaScript copy converts it to the records of the
    example. *)
Theorem Ts_convertToJson_example :
  Ts.convertToJson sheet1 = Returns {[ "Sheet1" := [∅; ∅] ]}
  /\ Js.convertToJson sheet1
     = Returns {[ "Sheet1" :=
         [ {[ "Name" := VStr "Alice"; "Age" := VNum 30; "Active" := VBool true ]};
           {[ "Name" := VStr "Bob"; "Age" := VNum 25; "Active" := VBool false ]} ] ]}.
Proof. split; reflexivity. Qed.

(** C10: on a sheet that passes header validation, a data row of any
    length is converted without exception, and its record is the record of
    the row cut at the length of the header row: the cells past the header
    row add no key.  This holds for the TypeScript source and for the
    JavaScript copy. *)
Theorem convertToJson_extra_cells_dropped
    (sheet : string) (headers : jsval) (rows : list jsval) (result : JsonSheetData) :
  validateHeaders headers = true -> rows <> [] -> Forall is_array rows ->
  (exists recordss,
     convert_sheet Ts.callback result (sheet, VArr (headers :: rows))
     = Returns (assign sheet recordss result)
     /\ Forall2 (fun row record =>
                   exists cells,
                     row = VArr cells
                     /\ record = record_of Ts.callback headers
                                   (take (length (header_cells headers)) cells))
          rows recordss)
  /\ (exists recordss,
        convert_sheet Js.callback result (sheet, VArr (headers :: rows))
        = Returns (assign sheet recordss result)
        /\ Forall2 (fun row record =>
                      exists cells,
                        row = VArr cells
                        /\ record = record_of Js.callback headers
                                      (take (length (header_cells headers)) cells))
             rows recordss).
Proof.
  intros Hv%validateHeaders_spec Hne Hrows. split.
  - destruct (sheet_records_valid Ts.callback sheet headers rows Hne Hv Hrows)
      as (recordss & Hr & Hall).
    exists recordss. rewrite convert_sheet_records, Hr. split; [done |].
    eapply Forall2_impl; [exact Hall |]. intros row record (cells & -> & ->).
    exists cells. split; [done |].
    apply (record_of_take Ts.callback). apply Ts_callback_past_end.
  - destruct (sheet_records_valid Js.callback sheet headers rows Hne Hv Hrows)
      as (recordss & Hr & Hall).
    exists recordss. rewrite convert_sheet_records, Hr. split; [done |].
    eapply Forall2_impl; [exact Hall |]. intros row record (cells & -> & ->).
    exists cells. split; [done |].
    apply (record_of_take Js.callback). apply Js_callback_past_end.
Qed.

Lemma convertToJson_extra_cells_dropped_witness :
  (validateHeaders (VArr [VStr "A"]) = true
   /\ [VArr [VStr "1"; VStr "2"]] <> []
   /\ Forall is_array [VArr [VStr "1"; VStr "2"]])
  /\ exists recordss,
       convert_sheet Js.callback ∅ ("Sheet1", VArr [VArr [VStr "A"]; VArr [VStr "1"; VStr "2"]])
       = Returns (assign "Sheet1" recordss ∅)
       /\ Forall2 (fun row record =>
                     exists cells,
                       row = VArr cells
                       /\ record = record_of Js.callback (VArr [VStr "A"])
                                     (take (length (header_cells (VArr [VStr "A"]))) cells))
            [VArr [VStr "1"; VStr "2"]] recordss.
Proof.
  assert (validateHeaders (VArr [VStr "A"]) = true) as H1 by reflexivity.
  assert ([VArr [VStr "1"; VStr "2"]] <> []) as H2 by discriminate.
  assert (Forall is_array [VArr [VStr "1"; VStr "2"]]) as H3
    by (repeat constructor; eexists; reflexivity).
  split; [by split_and! |].
  exact (proj2 (convertToJson_extra_cells_dropped "Sheet1" _ _ ∅ H1 H2 H3)).
Defined.

(** ** The check on the header cell *)

Section HeaderCheck.

Lemma sheet_records_unguarded sheet headers rows :
  (forall cells, VArr cells ∈ rows -> (length cells <= length (header_cells headers))%nat) ->
  sheet_records Js.callback (sheet, VArr (headers :: rows))
  = sheet_records Unguarded.callback (sheet, VArr (headers :: rows)).
Proof.
  intros Hfit. unfold sheet_records. cbn [fst snd].
  destruct rows as [|row rows]; [done |].
  destruct (validateHeaders headers) eqn:Hv; cbn [negb]; [| done].
  apply validateHeaders_spec in Hv as (texts & -> & _).
  apply map_throwing_ext. intros [| | | | |cells|] Hin; try done.
  unfold reduce_row, reduce. f_equal. apply reduce_from_ext.
  intros j acc value Hj _. rewrite Nat.sub_0_r in Hj.
  rewrite Js_callback_texts, Unguarded_callback_texts.
  specialize (Hfit cells Hin). simpl in Hfit. rewrite length_fmap in Hfit.
  apply lookup_lt_Some in Hj.
  destruct (lookup_lt_is_Some_2 texts j) as [text ->]; [lia | done].
Qed.

Lemma check_holds_below_header_length headers i :
  validateHeaders headers = true -> (i < length (header_cells headers))%nat ->
  typeof (index headers i) = "string".
Proof.
  intros (texts & -> & _)%validateHeaders_spec Hi. simpl in Hi. rewrite length_fmap in Hi.
  rewrite index_texts. by destruct (lookup_lt_is_Some_2 texts i Hi) as [text ->].
Qed.

End HeaderCheck.

(** C2, as stated, fails on a data row longer than its header row: the
    header [["A"]] passes validation, at index 1 the check is false, and
    without the check the second cell of the row [["1", "2"]] is assigned
    under the name "undefined"; neither copy of the converter agrees with
    the conversion without the check. *)
Lemma header_check_needed_on_long_row :
  validateHeaders (VArr [VStr "A"]) = true
  /\ typeof (index (VArr [VStr "A"]) 1) <> "string"
  /\ Js.convertToJson long_row_sheet
     = Returns {[ "Sheet1" := [ {[ "A" := VNum 1 ]} ] ]}
  /\ Unguarded.convertToJson long_row_sheet
     = Returns {[ "Sheet1" := [ {[ "A" := VNum 1; "undefined" := VNum 2 ]} ] ]}
  /\ Js.convertToJson long_row_sheet <> Unguarded.convertToJson long_row_sheet
  /\ Ts.convertToJson long_row_sheet <> Unguarded.convertToJson long_row_sheet.
Proof.
  set (probe := fun o : outcome JsonSheetData =>
         match o with
         | Returns r =>
             match r !! "Sheet1" with
             | Some (record :: _) => record !! "undefined"
             | _ => None
             end
         | Throws _ => None
         end).
  assert (probe (Js.convertToJson long_row_sheet) = None) as Hjs by reflexivity.
  assert (probe (Ts.convertToJson long_row_sheet) = None) as Hts by reflexivity.
  assert (probe (Unguarded.convertToJson long_row_sheet) = Some (VNum 2)) as Hun
    by reflexivity.
  split_and!; [reflexivity | discriminate | reflexivity | reflexivity | | ];
    intros H; congruence.
Qed.

(** C2, amended: in the JavaScript copy the check holds at every index
    below the length of a validated header row, and the conversion with it
    equals the conversion without it on every sheet set whose data rows are
    no longer than their header row. *)
Theorem header_check_redundant_on_fitting_rows (x : jsval) :
  rows_fit_headers x ->
  Js.convertToJson x = Unguarded.convertToJson x
  /\ forall sheet headers rows i,
       (sheet, VArr (headers :: rows)) ∈ entries x ->
       validateHeaders headers = true ->
       (i < length (header_cells headers))%nat ->
       typeof (index headers i) = "string".
Proof.
  intros Hfit. split.
  - unfold Js.convertToJson, Unguarded.convertToJson. rewrite !convert_with_records.
    rewrite (map_throwing_ext (sheet_records Js.callback) (sheet_records Unguarded.callback));
      [done |].
    intros [sheet data] Hin%loop_entries_subseteq.
    destruct data as [| | | | |[|headers rows]|]; try done.
    apply sheet_records_unguarded. intros cells Hcells. by eapply Hfit.
  - intros sheet headers rows i _. apply check_holds_below_header_length.
Qed.

Lemma name_sheet_rows_fit : rows_fit_headers name_sheet.
Proof.
  intros sheet headers rows cells Hin Hcells. simpl in Hin.
  apply elem_of_cons in Hin as [Hin | Hin]; [| by apply elem_of_nil in Hin].
  injection Hin as -> -> ->.
  apply elem_of_cons in Hcells as [Hcells | Hcells]; [| by apply elem_of_nil in Hcells].
  injection Hcells as ->. simpl. lia.
Qed.

Lemma header_check_redundant_on_fitting_rows_witness :
  rows_fit_headers name_sheet
  /\ Js.convertToJson name_sheet = Unguarded.convertToJson name_sheet.
Proof.
  split; [exact name_sheet_rows_fit |].
  exact (proj1 (header_check_redundant_on_fitting_rows name_sheet name_sheet_rows_fit)).
Defined.

(** ** Further properties of value parsing *)

Section ParseValueFurther.

(** X1: parsing a parsed value changes nothing: the result of [parseValue]
    is a value [parseValue] returns as it is. *)
Theorem parseValue_idempotent (value : jsval) :
  parseValue (parseValue value) = parseValue value.
Proof.
  destruct value as [| | | |text| |]; try reflexivity.
  unfold parseValue.
  destruct (test re_integer text) eqn:Ei; [reflexivity |].
  destruct (test re_decimal text) eqn:Ed; [reflexivity |].
  destruct (String.eqb (toLowerCase text) "true") eqn:Et; [reflexivity |].
  destruct (String.eqb (toLowerCase text) "false") eqn:Ef; [reflexivity |].
  by rewrite Ei, Ed, Et, Ef.
Qed.

Lemma parsed_char_digit c : is_digit c = true -> parsed_char c = true.
Proof. intros H. unfold parsed_char. by rewrite H. Qed.

Lemma parsed_char_letter w c :
  w ∈ word_letters -> c = w \/ c = capital w -> parsed_char c = true.
Proof.
  intros Hw Hc. unfold parsed_char. rewrite !orb_true_iff. right.
  apply existsb_exists. exists w. split; [by apply list_elem_of_In |].
  rewrite orb_true_iff, !Ascii.eqb_eq. done.
Qed.

Lemma digits_parsed s : digits s -> all_chars parsed_char s = true.
Proof.
  unfold digits. induction s as [|c s IH]; simpl; [done |].
  intros [Hc Hs]%andb_true_iff. by rewrite (parsed_char_digit c Hc), IH.
Qed.

Lemma boolean_word_parsed word s :
  Forall (.∈ word_letters) (list_ascii_of_string word) ->
  equal_ignoring_case word s -> all_chars parsed_char s = true.
Proof.
  revert s. induction word as [|w word IH]; intros [|c s] Hw; simpl; try done.
  apply Forall_cons in Hw as [Hw Hword]. intros [Hc Hs].
  by rewrite (parsed_char_letter w c Hw Hc), (IH s Hword Hs).
Qed.

(** X2: a text that holds a character other than digits, full stops and the
    letters of the two boolean words -- a space, a sign, a comma -- is
    returned as it is: nothing is trimmed before the patterns are tried. *)
Theorem parseValue_keeps_text_with_other_char (text : string) :
  all_chars parsed_char text = false -> parseValue (VStr text) = VStr text.
Proof.
  intros Hbad. apply parseValue_other_text.
  - apply not_true_is_false. intros [_ Hs%digits_parsed]%test_re_integer. congruence.
  - apply not_true_is_false.
    intros (a & b & -> & Ha%digits_parsed & _ & Hb%digits_parsed)%test_re_decimal.
    rewrite all_chars_append in Hbad. simpl in Hbad. rewrite Ha, Hb in Hbad. done.
  - intros H%toLowerCase_true%boolean_word_parsed; [congruence |].
    repeat constructor; word_letter.
  - intros H%toLowerCase_false%boolean_word_parsed; [congruence |].
    repeat constructor; word_letter.
Qed.

Lemma parseValue_keeps_text_with_other_char_witness :
  all_chars parsed_char " 42" = false /\ parseValue (VStr " 42") = VStr " 42".
Proof.
  assert (all_chars parsed_char " 42" = false) as H by reflexivity.
  split; [exact H | exact (parseValue_keeps_text_with_other_char " 42" H)].
Defined.

Lemma digits_value_from_zero s : digits_value (String "0" s) = digits_value s.
Proof. reflexivity. Qed.

(** X3: a zero in front of a run of digits does not change the number
    parsed. *)
Theorem parseValue_leading_zero (text : string) :
  integer_text text -> parseValue (VStr (String "0" text)) = parseValue (VStr text).
Proof.
  intros [Hne Hs].
  rewrite (parseValue_integer text Hne Hs).
  rewrite (parseValue_integer (String "0" text)); [| done | by unfold digits; simpl].
  by rewrite digits_value_from_zero.
Qed.

Lemma parseValue_leading_zero_witness :
  integer_text "25" /\ parseValue (VStr "025") = parseValue (VStr "25").
Proof.
  assert (integer_text "25") as H by (split; [discriminate | reflexivity]).
  split; [exact H | exact (parseValue_leading_zero "25" H)].
Defined.

End ParseValueFurther.

(** ** Further properties of header validation *)

Section HeaderValidationFurther.

Lemma valid_header_row_cells cells :
  valid_header_row (VArr cells) <-> Forall header_cell cells /\ NoDup cells.
Proof.
  unfold valid_header_row, header_cell. split.
  - intros (texts & [= ->] & Hne & Hnd). split.
    + apply Forall_fmap. eapply Forall_impl; [exact Hne |]. simpl. eauto.
    + apply NoDup_fmap_2; [| done]. by intros ?? [=].
  - intros [Hcells Hnd].
    assert (exists texts : list string,
              cells = VStr <$> texts /\ Forall (fun text => trim text <> "") texts)
      as (texts & -> & Hne).
    { clear Hnd. induction Hcells as [|cell cells (text & -> & Htext) _ (texts & -> & IH)].
      - by exists [].
      - exists (text :: texts). split; [done | by constructor]. }
    exists texts. split_and!; [done | done |]. by eapply NoDup_fmap_1.
Qed.

Lemma validateHeaders_cells cells :
  validateHeaders (VArr cells) = true <-> Forall header_cell cells /\ NoDup cells.
Proof. by rewrite validateHeaders_spec, valid_header_row_cells. Qed.

Lemma bool_eq_iff (a b : bool) : (a = true <-> b = true) -> a = b.
Proof. destruct a, b; intuition congruence. Qed.

(** X5: the verdict on a header row does not depend on the order of its
    cells. *)
Theorem validateHeaders_permutation (cells cells' : list jsval) :
  cells ≡ₚ cells' -> validateHeaders (VArr cells) = validateHeaders (VArr cells').
Proof.
  intros Hperm. apply bool_eq_iff. rewrite !validateHeaders_cells.
  by rewrite Hperm.
Qed.

Lemma validateHeaders_permutation_witness :
  [VStr "Name"; VStr "Age"] ≡ₚ [VStr "Age"; VStr "Name"]
  /\ validateHeaders (VArr [VStr "Name"; VStr "Age"])
     = validateHeaders (VArr [VStr "Age"; VStr "Name"]).
Proof.
  assert ([VStr "Name"; VStr "Age"] ≡ₚ [VStr "Age"; VStr "Name"]) as H by apply Permutation_swap.
  split; [exact H | exact (validateHeaders_permutation _ _ H)].
Defined.

(** X6: a header row that is accepted stays accepted when columns are
    removed; so a row that is rejected stays rejected when columns are
    added. *)
Theorem validateHeaders_sublist (cells cells' : list jsval) :
  sublist cells' cells ->
  validateHeaders (VArr cells) = true -> validateHeaders (VArr cells') = true.
Proof.
  intros Hsub [Hcells Hnd]%validateHeaders_cells. apply validateHeaders_cells. split.
  - apply Forall_forall. intros cell Hin. rewrite Forall_forall in Hcells.
    apply Hcells. by eapply elem_of_sublist.
  - by eapply sublist_NoDup.
Qed.

Lemma validateHeaders_sublist_witness :
  (sublist [VStr "Name"; VStr "Active"] [VStr "Name"; VStr "Age"; VStr "Active"]
   /\ validateHeaders (VArr [VStr "Name"; VStr "Age"; VStr "Active"]) = true)
  /\ validateHeaders (VArr [VStr "Name"; VStr "Active"]) = true.
Proof.
  assert (sublist [VStr "Name"; VStr "Active"] [VStr "Name"; VStr "Age"; VStr "Active"]) as H1
    by (apply sublist_skip, sublist_cons, sublist_skip; constructor).
  assert (validateHeaders (VArr [VStr "Name"; VStr "Age"; VStr "Active"]) = true) as H2
    by reflexivity.
  split; [by split | exact (validateHeaders_sublist _ _ H1 H2)].
Defined.

End HeaderValidationFurther.

(** ** Further properties of the conversion loop *)

Section ConversionFurther.

Variable callback : jsval -> gmap string jsval -> jsval -> nat -> gmap string jsval.

Lemma own_names_app names names' :
  own_names (names ++ names')%list = own_names names ∪ own_names names'.
Proof. unfold own_names. rewrite filter_app. set_solver. Qed.

Lemma assign_all_dom items : forall result : JsonSheetData,
  dom (assign_all result items) = dom result ∪ own_names items.*1.
Proof.
  induction items as [|[k v] items IH]; intros result; simpl.
  - unfold own_names. set_solver.
  - change (dom (assign_all (assign k v result) items)
            = dom result ∪ own_names (k :: items.*1)).
    rewrite IH, dom_assign, (own_names_cons k items.*1), (own_names_cons k []).
    unfold own_names at 1. set_solver.
Qed.

Lemma for_each_dom items (result : JsonSheetData) :
  for_each (convert_sheet callback) items ∅ = Returns result ->
  dom result = own_names items.*1.
Proof.
  rewrite for_each_convert_sheet.
  destruct (map_throwing (sheet_records callback) items) as [recordss|e] eqn:E; [| done].
  simpl. intros [= <-]. apply map_throwing_returns, Forall2_length in E.
  rewrite assign_all_dom, dom_empty_L, fst_zip; [set_solver |].
  rewrite length_fmap. lia.
Qed.

Lemma convert_with_dom_loop x result :
  convert_with callback x = Returns result ->
  dom result = own_names (loop_entries x).*1.
Proof. rewrite convert_with_loop. apply for_each_dom. Qed.

Lemma convert_with_dom x result :
  typeof x = "object" ->
  convert_with callback x = Returns result -> dom result = own_names (keys x).
Proof.
  intros Hx Hret%convert_with_dom_loop. by rewrite (loop_entries_object x Hx) in Hret.
Qed.

Lemma convert_with_single sheet data records :
  sheet_records callback (sheet, data) = Returns records ->
  convert_with callback (VObj [(sheet, data)]) = Returns (assign sheet records ∅).
Proof. intros H. rewrite convert_with_records. simpl. by rewrite H. Qed.

Lemma for_each_returns_all items :
  (exists result : JsonSheetData, for_each (convert_sheet callback) items ∅ = Returns result)
  <-> Forall (fun entry => exists records, sheet_records callback entry = Returns records)
        items.
Proof.
  rewrite for_each_convert_sheet. split.
  - intros [result Hret].
    destruct (map_throwing (sheet_records callback) items) as [recordss|e] eqn:E; [| done].
    apply map_throwing_returns in E.
    apply Forall_forall. intros entry [i Hi]%list_elem_of_lookup.
    destruct (Forall2_lookup_l _ _ _ _ _ E Hi) as (records & _ & Hrec). eauto.
  - intros Hall.
    destruct (map_throwing (sheet_records callback) items) as [recordss|e] eqn:E;
      [by eexists |].
    apply map_throwing_throws in E as (before & entry & after & Heq & _ & Hthrow).
    rewrite Forall_forall in Hall. destruct (Hall entry) as [records Hrec].
    + rewrite Heq. set_solver.
    + congruence.
Qed.

(** A returning loop returns the same result in whatever order it visits
    its items. *)
Lemma for_each_permutation items items' (result : JsonSheetData) :
  items ≡ₚ items' -> NoDup items.*1 ->
  for_each (convert_sheet callback) items ∅ = Returns result ->
  for_each (convert_sheet callback) items' ∅ = Returns result.
Proof.
  intros Hperm Hnd Hret.
  assert (exists result' : JsonSheetData,
            for_each (convert_sheet callback) items' ∅ = Returns result')
    as [result' Hret'].
  { apply for_each_returns_all. rewrite <- Hperm. apply for_each_returns_all. eauto. }
  rewrite Hret'. f_equal. apply map_eq. intros sheet.
  assert (NoDup items'.*1) as Hnd' by (by rewrite <- Hperm).
  destruct (decide (sheet ∈ items.*1)) as [Hin | Hnotin].
  - apply list_elem_of_fmap in Hin as ([sheet0 data] & -> & Hin). simpl.
    destruct (for_each_lookup callback items sheet0 data result Hnd Hin Hret)
      as (records & Hrec & ->).
    assert ((sheet0, data) ∈ items') as Hin' by (by rewrite <- Hperm).
    destruct (for_each_lookup callback items' sheet0 data result' Hnd' Hin' Hret')
      as (records' & Hrec' & ->).
    congruence.
  - pose proof (for_each_dom _ _ Hret) as Hdom.
    pose proof (for_each_dom _ _ Hret') as Hdom'.
    assert (sheet ∉ items'.*1) as Hnotin' by (by rewrite <- Hperm).
    rewrite (proj1 (not_elem_of_dom result sheet)), (proj1 (not_elem_of_dom result' sheet));
      [done | |]; [rewrite Hdom' | rewrite Hdom]; rewrite elem_of_own_names; tauto.
Qed.

Lemma for_each_permutation_throws items items' :
  items ≡ₚ items' -> NoDup items.*1 ->
  (exists e, for_each (convert_sheet callback) items (∅ : JsonSheetData) = Throws e) ->
  exists e, for_each (convert_sheet callback) items' (∅ : JsonSheetData) = Throws e.
Proof.
  intros Hperm Hnd [e He].
  destruct (for_each (convert_sheet callback) items' (∅ : JsonSheetData))
    as [result|e'] eqn:E; [| by eauto].
  apply (for_each_permutation items' items) in E; [congruence | done |].
  by rewrite <- Hperm.
Qed.

Lemma convert_with_permutation sheets sheets' result :
  sheets ≡ₚ sheets' -> NoDup sheets.*1 ->
  convert_with callback (VObj sheets) = Returns result ->
  convert_with callback (VObj sheets') = Returns result.
Proof.
  intros Hperm Hnd. rewrite !convert_with_loop.
  rewrite !loop_entries_object by done. by apply for_each_permutation.
Qed.

(** With data rows that are sequences, a sheet that is not offending is
    converted without exception. *)
Lemma sheet_records_fine sheet data :
  (forall headers rows, data = VArr (headers :: rows) -> Forall is_array rows) ->
  ~ offending_sheet data ->
  exists records, sheet_records callback (sheet, data) = Returns records.
Proof.
  intros Hrows Hfine.
  destruct (sheet_records callback (sheet, data)) as [records|e] eqn:E; [by eauto |].
  by apply sheet_records_throws in E as [? _].
Qed.

Lemma convert_with_first_offending x e :
  data_rows_are_arrays x ->
  convert_with callback x = Throws e
  <-> exists before sheet data after,
        entries x = (before ++ (sheet, data) :: after)%list
        /\ Forall (fun entry => ~ offending_sheet entry.2) before
        /\ offending_sheet data
        /\ e = Error (invalid_headers_message sheet).
Proof.
  intros Hrows. rewrite convert_with_throws, map_throwing_throws. split.
  - intros (before & [sheet data] & after & Heq & Hbefore & Hthrow).
    exists before, sheet, data, after.
    apply sheet_records_throws in Hthrow as [Hbad ->].
    + split_and!; try done. eapply Forall_impl; [exact Hbefore |].
      intros [sheet' data'] [records Hrec] Hbad'. simpl in Hbad'.
      by rewrite (sheet_records_offending callback sheet' data' Hbad') in Hrec.
    + intros headers rows ->. apply (Hrows sheet headers). rewrite Heq. set_solver.
  - intros (before & sheet & data & after & Heq & Hbefore & Hbad & ->).
    exists before, (sheet, data), after. split_and!; [done | |].
    + apply Forall_forall. intros [sheet' data'] Hin.
      apply sheet_records_fine.
      * intros headers rows ->. apply (Hrows sheet' headers). rewrite Heq. set_solver.
      * rewrite Forall_forall in Hbefore. by apply (Hbefore (sheet', data')).
    + by apply sheet_records_offending.
Qed.

Lemma sheet_records_type_error sheet data :
  sheet_records callback (sheet, data) = Throws TypeError -> ill_typed_sheet data.
Proof.
  unfold sheet_records. cbn [fst snd].
  destruct data as [| | | | |[|headers [|row rows]]|]; try done.
  destruct (validateHeaders headers) eqn:Hv; cbn [negb]; [| done].
  intros (before & row' & after & Heq & _ & Hrow)%map_throwing_throws.
  exists headers, (row :: rows), row'. split_and!; [done | by apply validateHeaders_spec | |].
  - rewrite Heq. set_solver.
  - intros [cells ->]. done.
Qed.

Lemma convert_with_type_error x :
  convert_with callback x = Throws TypeError ->
  exists sheet data, (sheet, data) ∈ entries x /\ ill_typed_sheet data.
Proof.
  intros (before & [sheet data] & after & Heq & _ & Hthrow)%convert_with_throws%map_throwing_throws.
  exists sheet, data. split; [rewrite Heq; set_solver |].
  by eapply sheet_records_type_error.
Qed.

End ConversionFurther.

(** ** Two conversions of the same input *)

Section Determinism.

(** C9: two conversions of the same sheet set yield equal record sets.
    The converter reads nothing but its argument, and the one thing its
    argument does not fix by its contents, the order in which [for ... in]
    visits the sheets, does not matter: of two runs over the same input,
    each visiting the sheets in an order of its own, one returns when the
    other does, and the record sets they return are equal -- the same
    sheet entries with the same record sequences.  [convertToJson] is the
    run that visits the sheets in the order of the input. *)
Theorem convertToJson_deterministic :
  both_callbacks (fun callback =>
    forall x order order',
      NoDup (keys x) -> order ≡ₚ entries x -> order' ≡ₚ entries x ->
      (forall result result',
         convert_in_order callback x order = Returns result ->
         convert_in_order callback x order' = Returns result' ->
         result = result'
         /\ dom result = dom result'
         /\ forall sheet, result !! sheet = result' !! sheet)
      /\ ((exists result, convert_in_order callback x order = Returns result)
          <-> (exists result', convert_in_order callback x order' = Returns result')))
  /\ (forall x, Ts.convertToJson x = convert_in_order Ts.callback x (entries x))
  /\ (forall x, Js.convertToJson x = convert_in_order Js.callback x (entries x)).
Proof.
  assert (forall callback x order order',
            NoDup (keys x) -> order ≡ₚ entries x -> order' ≡ₚ entries x ->
            forall result,
              convert_in_order callback x order = Returns result ->
              convert_in_order callback x order' = Returns result) as Hgen.
  { intros callback x order order' Hnd Horder Horder' result.
    unfold convert_in_order. destruct (nothing_to_convert x); [done |].
    apply for_each_permutation; [by rewrite Horder, Horder' |].
    unfold keys in Hnd. by rewrite Horder. }
  assert (forall callback x order order',
            NoDup (keys x) -> order ≡ₚ entries x -> order' ≡ₚ entries x ->
            (forall result result',
               convert_in_order callback x order = Returns result ->
               convert_in_order callback x order' = Returns result' ->
               result = result'
               /\ dom result = dom result'
               /\ forall sheet, result !! sheet = result' !! sheet)
            /\ ((exists result, convert_in_order callback x order = Returns result)
                <-> (exists result', convert_in_order callback x order' = Returns result')))
    as Hboth.
  { intros callback x order order' Hnd Horder Horder'. split.
    - intros result result' Hret Hret'.
      apply (Hgen callback x order order' Hnd Horder Horder') in Hret.
      rewrite Hret in Hret'. by injection Hret' as <-.
    - split; intros [result Hret]; exists result.
      + by apply (Hgen callback x order order').
      + by apply (Hgen callback x order' order). }
  split_and!.
  - split; intros x order order'; apply Hboth.
  - intros x. unfold Ts.convertToJson, convert_with, convert_in_order. done.
  - intros x. unfold Js.convertToJson, convert_with, convert_in_order. done.
Qed.

Lemma convertToJson_deterministic_witness :
  (NoDup (keys headers_only_sheet)
   /\ rev (entries headers_only_sheet) ≡ₚ entries headers_only_sheet
   /\ entries headers_only_sheet ≡ₚ entries headers_only_sheet)
  /\ convert_in_order Ts.callback headers_only_sheet (rev (entries headers_only_sheet))
     = Returns {[ "Empty" := []; "Headers" := [] ]}
  /\ Ts.convertToJson headers_only_sheet = Returns {[ "Empty" := []; "Headers" := [] ]}.
Proof.
  assert (NoDup (keys headers_only_sheet)) as H1 by (simpl; repeat constructor; set_solver).
  assert (rev (entries headers_only_sheet) ≡ₚ entries headers_only_sheet) as H2
    by (symmetry; apply Permutation_rev).
  assert (entries headers_only_sheet ≡ₚ entries headers_only_sheet) as H3 by reflexivity.
  split; [by split_and! |].
  assert (exists result,
            convert_in_order Ts.callback headers_only_sheet (rev (entries headers_only_sheet))
            = Returns result) as [result Hret] by (eexists; reflexivity).
  assert (exists result',
            convert_in_order Ts.callback headers_only_sheet (entries headers_only_sheet)
            = Returns result') as [result' Hret'] by (eexists; reflexivity).
  destruct (proj1 (proj1 (proj1 convertToJson_deterministic) headers_only_sheet _ _ H1 H2 H3)
              result result' Hret Hret') as [Heq _].
  split; [| reflexivity].
  rewrite Hret, Heq. rewrite <- Hret'. reflexivity.
Defined.

End Determinism.

(** ** Further properties of the records *)

Section KeyedRows.

(** A reducer that assigns the cell at a position under the header text
    of that position when [keep] holds of the text, as both copies do on a
    header row of texts. *)
Variable texts : list string.
Variable keep : string -> bool.
Variable f : gmap string jsval -> jsval -> nat -> gmap string jsval.

Hypothesis f_spec : forall obj value j,
  f obj value j
  = match texts !! j with
    | Some text => if keep text then <[text := parseValue value]> obj else obj
    | None => obj
    end.

Lemma keyed_reduce_other key cells : forall j acc,
  key ∉ texts -> reduce_from f j cells acc !! key = acc !! key.
Proof.
  induction cells as [|cell cells IH]; intros j acc Hkey; simpl; [done |].
  rewrite IH by done. rewrite f_spec.
  destruct (texts !! j) as [text|] eqn:Hj; [| done].
  destruct (keep text); [| done].
  apply lookup_insert_ne. intros ->. apply Hkey. by eapply list_elem_of_lookup_2.
Qed.

Lemma keyed_reduce_at i text cells : forall j acc,
  NoDup texts -> texts !! i = Some text ->
  reduce_from f j cells acc !! text
  = if decide (j <= i)%nat
    then match cells !! (i - j)%nat with
         | Some cell => if keep text then Some (parseValue cell) else acc !! text
         | None => acc !! text
         end
    else acc !! text.
Proof.
  intros j acc Hnd Hi. revert j acc.
  induction cells as [|cell cells IH]; intros j acc; simpl.
  - by case_decide.
  - rewrite IH, f_spec. destruct (decide (j = i)) as [-> | Hne].
    + rewrite Hi, Nat.sub_diag. simpl.
      rewrite (decide_False (P := (S i <= i)%nat)) by lia.
      rewrite (decide_True (P := (i <= i)%nat)) by lia.
      destruct (keep text); [by rewrite lookup_insert_eq | done].
    + assert ((match texts !! j with
               | Some text' => if keep text' then <[text' := parseValue cell]> acc else acc
               | None => acc
               end) !! text = acc !! text) as Hsame.
      { destruct (texts !! j) as [text'|] eqn:Hj; [| done].
        destruct (keep text'); [| done].
        apply lookup_insert_ne. intros ->. apply Hne.
        by eapply (NoDup_lookup texts j i). }
      repeat case_decide; try lia; [| done].
      replace (i - j)%nat with (S (i - S j)) by lia. simpl.
      destruct (cells !! (i - S j)%nat); [| done]. by destruct (keep text).
Qed.

End KeyedRows.

Section RecordsFurther.

(** X8: in the JavaScript copy, under a validated header row, the record of
    a data row holds, for the header text of each position other than
    "__proto__", the parsed cell of that position -- nothing when the row
    has no such cell -- and holds nothing under any other key, "__proto__"
    included. *)
Theorem Js_record_lookup (headers : jsval) (cells : list jsval) :
  validateHeaders headers = true ->
  (forall i text,
     header_cells headers !! i = Some (VStr text) -> text <> "__proto__" ->
     record_of Js.callback headers cells !! text = parseValue <$> cells !! i)
  /\ (forall key,
        VStr key ∉ header_cells headers ->
        record_of Js.callback headers cells !! key = None)
  /\ record_of Js.callback headers cells !! "__proto__" = None.
Proof.
  intros (texts & -> & _ & Hnd)%validateHeaders_spec. simpl.
  assert (forall obj value j,
            Js.callback (VArr (VStr <$> texts)) obj value j
            = match texts !! j with
              | Some text =>
                  if negb (String.eqb text "__proto__")
                  then <[text := parseValue value]> obj else obj
              | None => obj
              end) as Hspec.
  { intros obj value j. rewrite Js_callback_texts. destruct (texts !! j) as [text|]; [| done].
    unfold assign. by destruct (String.eqb text "__proto__"). }
  split_and!.
  - intros i text Hi Htext. rewrite list_lookup_fmap in Hi.
    destruct (texts !! i) as [text'|] eqn:Hi'; [| done]. injection Hi as ->.
    unfold record_of, reduce.
    rewrite (keyed_reduce_at texts _ _ Hspec i text cells 0 ∅ Hnd Hi').
    rewrite decide_True by lia. rewrite Nat.sub_0_r.
    destruct (String.eqb text "__proto__") eqn:E; [by apply String.eqb_eq in E |].
    by destruct (cells !! i).
  - intros key Hkey. unfold record_of, reduce.
    rewrite (keyed_reduce_other texts _ _ Hspec); [done |].
    intros Hin. apply Hkey. apply list_elem_of_fmap. eauto.
  - apply not_elem_of_dom. rewrite Js_record_keys, elem_of_own_names. tauto.
Qed.

Lemma Js_record_lookup_witness :
  validateHeaders (VArr [VStr "Name"; VStr "Age"]) = true
  /\ record_of Js.callback (VArr [VStr "Name"; VStr "Age"]) [VStr "Bob"] !! "Name"
     = Some (VStr "Bob")
  /\ record_of Js.callback (VArr [VStr "Name"; VStr "Age"]) [VStr "Bob"] !! "Age"
     = None.
Proof.
  assert (validateHeaders (VArr [VStr "Name"; VStr "Age"]) = true) as H by reflexivity.
  assert ("Name" <> "__proto__") as H1 by discriminate.
  assert ("Age" <> "__proto__") as H2 by discriminate.
  split; [exact H |].
  split.
  - exact (proj1 (Js_record_lookup _ [VStr "Bob"] H) 0%nat "Name" eq_refl H1).
  - exact (proj1 (Js_record_lookup _ [VStr "Bob"] H) 1%nat "Age" eq_refl H2).
Defined.

(** X9: in the TypeScript source, under a validated header row, the record
    of a data row holds the parsed cell of the column headed "string", when
    there is such a column and the row reaches it, and nothing else. *)
Theorem Ts_record_lookup (headers : jsval) (cells : list jsval) :
  validateHeaders headers = true ->
  (forall i,
     header_cells headers !! i = Some (VStr "string") ->
     record_of Ts.callback headers cells !! "string" = parseValue <$> cells !! i)
  /\ (VStr "string" ∉ header_cells headers ->
      record_of Ts.callback headers cells = ∅)
  /\ (forall key, key <> "string" -> record_of Ts.callback headers cells !! key = None).
Proof.
  intros (texts & -> & _ & Hnd)%validateHeaders_spec. simpl.
  assert (forall obj value j,
            Ts.callback (VArr (VStr <$> texts)) obj value j
            = match texts !! j with
              | Some text =>
                  if String.eqb text "string" then <[text := parseValue value]> obj else obj
              | None => obj
              end) as Hspec.
  { intros obj value j. unfold Ts.callback. rewrite index_texts.
    destruct (texts !! j) as [text|]; [| done].
    destruct (String.eqb text "string") eqn:E; [| done].
    by apply String.eqb_eq in E as ->. }
  assert (forall key, key <> "string" ->
            record_of Ts.callback (VArr (VStr <$> texts)) cells !! key = None) as Hother.
  { intros key Hkey. apply not_elem_of_dom.
    pose proof (Ts_record_keys (VArr (VStr <$> texts)) cells). set_solver. }
  split_and!; [| | done].
  - intros i Hi. rewrite list_lookup_fmap in Hi.
    destruct (texts !! i) as [text'|] eqn:Hi'; [| done]. injection Hi as ->.
    unfold record_of, reduce.
    rewrite (keyed_reduce_at texts _ _ Hspec i "string" cells 0 ∅ Hnd Hi').
    rewrite decide_True by lia. rewrite Nat.sub_0_r.
    by destruct (cells !! i).
  - intros Hnone. apply map_eq. intros key. rewrite lookup_empty.
    destruct (decide (key = "string")) as [-> | Hne]; [| by apply Hother].
    unfold record_of, reduce.
    rewrite (keyed_reduce_other texts _ _ Hspec); [done |].
    intros Hin. apply Hnone. apply list_elem_of_fmap. eauto.
Qed.

Lemma Ts_record_lookup_witness :
  validateHeaders (VArr [VStr "Name"; VStr "string"]) = true
  /\ record_of Ts.callback (VArr [VStr "Name"; VStr "string"]) [VStr "Bob"; VStr "7"]
       !! "string" = Some (VNum 7)
  /\ record_of Ts.callback (VArr [VStr "Name"; VStr "string"]) [VStr "Bob"; VStr "7"]
       !! "Name" = None.
Proof.
  assert (validateHeaders (VArr [VStr "Name"; VStr "string"]) = true) as H by reflexivity.
  split; [exact H |].
  split.
  - exact (proj1 (Ts_record_lookup _ [VStr "Bob"; VStr "7"] H) 1%nat eq_refl).
  - apply (proj2 (proj2 (Ts_record_lookup _ [VStr "Bob"; VStr "7"] H))). discriminate.
Defined.

Lemma parsed_value_parseValue value : parsed_value (parseValue value).
Proof.
  split.
  - destruct value as [| | | |text| |]; try reflexivity. unfold parseValue.
    destruct (test re_integer text) eqn:Ei; [reflexivity |].
    destruct (test re_decimal text) eqn:Ed; [reflexivity |].
    destruct (String.eqb (toLowerCase text) "true") eqn:Et; [reflexivity |].
    destruct (String.eqb (toLowerCase text) "false") eqn:Ef; [reflexivity |].
    by rewrite Ei, Ed, Et, Ef.
  - destruct value as [| | | |text| |]; try done. unfold parseValue.
    repeat match goal with |- context [if ?b then _ else _] => destruct b end; done.
Qed.

Lemma reduce_parsed_values (f : gmap string jsval -> jsval -> nat -> gmap string jsval) cells :
  (forall obj value j,
     f obj value j = obj \/ exists key, f obj value j = <[key := parseValue value]> obj) ->
  forall j (acc : gmap string jsval),
    map_Forall (fun _ v => parsed_value v) acc ->
    map_Forall (fun _ v => parsed_value v) (reduce_from f j cells acc).
Proof.
  intros Hf. induction cells as [|cell cells IH]; intros j acc Hacc; simpl; [done |].
  apply IH. destruct (Hf acc cell j) as [-> | [key ->]]; [done |].
  apply map_Forall_insert_2; [apply parsed_value_parseValue | done].
Qed.

(** X10: whatever the header row and the data row, every value of a record is
    a parsed value: [parseValue] would return it as it is, and it is never
    [undefined]. *)
Theorem record_values_parsed :
  both_callbacks (fun callback =>
    forall headers cells key v,
      record_of callback headers cells !! key = Some v -> parsed_value v).
Proof.
  split; intros headers cells key v Hv.
  - refine (reduce_parsed_values (Ts.callback headers) cells _ 0 ∅ _ key v Hv).
    + intros obj value j. unfold Ts.callback.
      destruct (index headers j) as [| | | |header| |]; eauto.
      destruct (String.eqb _ _); eauto.
      destruct (assign_cases header (parseValue value) obj) as [[_ ->] | [_ ->]]; eauto.
    + apply map_Forall_empty.
  - refine (reduce_parsed_values (Js.callback headers) cells _ 0 ∅ _ key v Hv).
    + intros obj value j. unfold Js.callback.
      destruct (String.eqb _ _); eauto.
      destruct (index headers j) as [| | | |header| |]; eauto.
      destruct (assign_cases header (parseValue value) obj) as [[_ ->] | [_ ->]]; eauto.
    + apply map_Forall_empty.
Qed.

Lemma record_values_parsed_witness :
  record_of Js.callback (VArr [VStr "Age"]) [VStr "30"] !! "Age" = Some (VNum 30)
  /\ parsed_value (VNum 30).
Proof.
  assert (record_of Js.callback (VArr [VStr "Age"]) [VStr "30"] !! "Age" = Some (VNum 30))
    as H by reflexivity.
  split; [exact H | exact (proj2 record_values_parsed _ _ _ _ H)].
Defined.

End RecordsFurther.

(** ** Further properties of the converter *)

Section ConverterFurther.



(** X12: the records of a sheet depend on the grid of that sheet only: when
    the conversion of an object of sheets returns, the entry of each sheet
    is the entry that the conversion of that sheet alone returns, where
    both are the outcome of assigning the sheet's records under its name. *)
Theorem convertToJson_sheet_by_sheet :
  both_copies (fun convertToJson =>
    forall x sheet data result,
      typeof x = "object" ->
      NoDup (keys x) -> (sheet, data) ∈ entries x ->
      convertToJson x = Returns result ->
      exists records,
        convertToJson (VObj [(sheet, data)]) = Returns (assign sheet records ∅)
        /\ result !! sheet = assign sheet records ∅ !! sheet).
Proof.
  split; intros x sheet data result Hx Hnd Hin Hret.
  - destruct (convert_with_lookup Ts.callback x sheet data result Hnd Hin
                (loop_entries_object x Hx) Hret) as (records & Hrec & Hlook).
    exists records. split; [by apply convert_with_single | done].
  - destruct (convert_with_lookup Js.callback x sheet data result Hnd Hin
                (loop_entries_object x Hx) Hret) as (records & Hrec & Hlook).
    exists records. split; [by apply convert_with_single | done].
Qed.

Lemma sheet1_keys : NoDup (keys sheet1).
Proof. simpl. repeat constructor. set_solver. Qed.

Lemma convertToJson_sheet_by_sheet_witness :
  typeof sheet1 = "object" /\ NoDup (keys sheet1)
  /\ exists records, Js.convertToJson sheet1 = Returns (assign "Sheet1" records ∅).
Proof.
  split; [reflexivity |].
  split; [exact sheet1_keys |].
  assert (exists result, Js.convertToJson sheet1 = Returns result) as [result H]
    by (eexists; reflexivity).
  destruct (proj2 convertToJson_sheet_by_sheet sheet1 "Sheet1" _ result eq_refl sheet1_keys
              (list_elem_of_here _ _) H) as (records & Hone & _).
  exists records. exact Hone.
Defined.

(** X13: the order in which the sheets are enumerated does not matter to the
    result: two objects with the same sheets in different orders convert to
    the same record set, and one throws when the other does. *)
Theorem convertToJson_sheet_order :
  both_copies (fun convertToJson =>
    forall sheets sheets',
      sheets ≡ₚ sheets' -> NoDup sheets.*1 ->
      (forall result,
         convertToJson (VObj sheets) = Returns result
         <-> convertToJson (VObj sheets') = Returns result)
      /\ ((exists e, convertToJson (VObj sheets) = Throws e)
          <-> (exists e, convertToJson (VObj sheets') = Throws e))).
Proof.
  assert (forall callback sheets sheets',
            sheets ≡ₚ sheets' -> NoDup sheets.*1 ->
            (forall result,
               convert_with callback (VObj sheets) = Returns result
               <-> convert_with callback (VObj sheets') = Returns result)
            /\ ((exists e, convert_with callback (VObj sheets) = Throws e)
                <-> (exists e, convert_with callback (VObj sheets') = Throws e))) as Hgen.
  { intros callback sheets sheets' Hperm Hnd.
    assert (NoDup sheets'.*1) as Hnd' by (by rewrite <- Hperm).
    assert (forall result,
              convert_with callback (VObj sheets) = Returns result
              <-> convert_with callback (VObj sheets') = Returns result) as Hret.
    { intros result. split; apply convert_with_permutation; done. }
    assert (forall o : outcome JsonSheetData,
              (exists result, o = Returns result) \/ (exists e, o = Throws e)) as Hcases
      by (intros [result|e]; eauto).
    split; [exact Hret |].
    split; intros [e He].
    - destruct (Hcases (convert_with callback (VObj sheets'))) as [[result Hr] | ?]; [| done].
      apply Hret in Hr. congruence.
    - destruct (Hcases (convert_with callback (VObj sheets))) as [[result Hr] | ?]; [| done].
      apply Hret in Hr. congruence. }
  split; intros sheets sheets'; apply Hgen.
Qed.

Lemma convertToJson_sheet_order_witness :
  ([("B", VArr []); ("A", VArr [])] ≡ₚ [("A", VArr []); ("B", VArr [])]
   /\ NoDup [("B", VArr []); ("A", VArr [])].*1)
  /\ Ts.convertToJson (VObj [("A", VArr []); ("B", VArr [])])
     = Returns {[ "A" := []; "B" := [] ]}.
Proof.
  assert ([("B", VArr []); ("A", VArr [])] ≡ₚ [("A", VArr []); ("B", VArr [])]) as H1
    by apply Permutation_swap.
  assert (NoDup [("B", VArr []); ("A", VArr [])].*1) as H2
    by (simpl; repeat constructor; set_solver).
  split; [by split |].
  apply (proj1 (proj1 convertToJson_sheet_order _ _ H1 H2)). reflexivity.
Defined.

(** X14: on a sheet set whose data rows are sequences, what the conversion
    throws is the error that names the first sheet, in enumeration order,
    with at least two rows and an invalid header row; the sheets after it
    are not looked at. *)
Theorem convertToJson_first_offending_sheet :
  both_copies (fun convertToJson =>
    forall x e,
      data_rows_are_arrays x ->
      convertToJson x = Throws e
      <-> exists before sheet data after,
            entries x = (before ++ (sheet, data) :: after)%list
            /\ Forall (fun entry => ~ offending_sheet entry.2) before
            /\ offending_sheet data
            /\ e = Error (invalid_headers_message sheet)).
Proof. split; intros x e; apply convert_with_first_offending. Qed.

Lemma convertToJson_first_offending_sheet_witness :
  data_rows_are_arrays duplicate_headers_sheet
  /\ exists before sheet data after,
       entries duplicate_headers_sheet = (before ++ (sheet, data) :: after)%list
       /\ Forall (fun entry => ~ offending_sheet entry.2) before
       /\ offending_sheet data
       /\ Error "Invalid or duplicate headers in sheet: Bad"
          = Error (invalid_headers_message sheet).
Proof.
  split; [exact duplicate_headers_sheet_rows |].
  apply (proj1 (proj1 convertToJson_first_offending_sheet duplicate_headers_sheet _
                  duplicate_headers_sheet_rows)).
  reflexivity.
Defined.

(** X15: the conversion throws a [TypeError] only on a sheet set that holds a
    sheet with a valid header row and a data row that is no sequence. *)
Theorem convertToJson_type_error :
  both_copies (fun convertToJson =>
    forall x,
      convertToJson x = Throws TypeError ->
      exists sheet data, (sheet, data) ∈ entries x /\ ill_typed_sheet data).
Proof. split; intros x; apply convert_with_type_error. Qed.

Lemma convertToJson_type_error_witness :
  Js.convertToJson (VObj [("S", VArr [VArr [VStr "A"]; VNull])]) = Throws TypeError
  /\ exists sheet data,
       (sheet, data) ∈ entries (VObj [("S", VArr [VArr [VStr "A"]; VNull])])
       /\ ill_typed_sheet data.
Proof.
  assert (Js.convertToJson (VObj [("S", VArr [VArr [VStr "A"]; VNull])]) = Throws TypeError)
    as H by reflexivity.
  split; [exact H | exact (proj2 convertToJson_type_error _ H)].
Defined.

Lemma Forall2_all_empty (rows : list jsval) (recordss : list (gmap string jsval)) :
  Forall2 (fun _ record => record = ∅) rows recordss ->
  recordss = replicate (length rows) ∅.
Proof. induction 1 as [|row record rows recordss -> _ IH]; simpl; [done | by rewrite IH]. Qed.

(** X16: an empty header row is accepted: a sheet whose first row is empty
    and whose data rows are sequences converts to one empty record per
    data row, assigned under the sheet's name. *)
Theorem convertToJson_empty_header_row :
  both_callbacks (fun callback =>
    forall sheet rows result,
      rows <> [] -> Forall is_array rows ->
      convert_sheet callback result (sheet, VArr (VArr [] :: rows))
      = Returns (assign sheet (replicate (length rows) ∅) result)).
Proof.
  assert (valid_header_row (VArr [])) as Hv by (by apply validateHeaders_spec).
  split; intros sheet rows result Hne Hrows.
  - destruct (sheet_records_valid Ts.callback sheet _ rows Hne Hv Hrows)
      as (recordss & Hr & Hall).
    rewrite convert_sheet_records, Hr. simpl.
    replace recordss with (replicate (length rows) (∅ : record)); [done |].
    symmetry. apply Forall2_all_empty. eapply Forall2_impl; [exact Hall |].
    intros row record (cells & -> & ->).
    rewrite <- (reduce_from_id (Ts.callback (VArr [])) cells 0 ∅) at 2; [done |].
    intros j acc value _. apply Ts_callback_past_end. simpl. lia.
  - destruct (sheet_records_valid Js.callback sheet _ rows Hne Hv Hrows)
      as (recordss & Hr & Hall).
    rewrite convert_sheet_records, Hr. simpl.
    replace recordss with (replicate (length rows) (∅ : record)); [done |].
    symmetry. apply Forall2_all_empty. eapply Forall2_impl; [exact Hall |].
    intros row record (cells & -> & ->).
    rewrite <- (reduce_from_id (Js.callback (VArr [])) cells 0 ∅) at 2; [done |].
    intros j acc value _. apply Js_callback_past_end. simpl. lia.
Qed.

Lemma convertToJson_empty_header_row_witness :
  ([VArr [VStr "x"]; VArr []] <> [] /\ Forall is_array [VArr [VStr "x"]; VArr []])
  /\ convert_sheet Js.callback ∅ ("S", VArr [VArr []; VArr [VStr "x"]; VArr []])
     = Returns (<["S" := replicate 2 ∅]> ∅).
Proof.
  assert ([VArr [VStr "x"]; VArr []] <> []) as H1 by discriminate.
  assert (Forall is_array [VArr [VStr "x"]; VArr []]) as H2
    by (repeat constructor; eexists; reflexivity).
  split; [by split |].
  exact (proj2 convertToJson_empty_header_row "S" _ ∅ H1 H2).
Defined.

End ConverterFurther.

(** ** The public operation *)

Section Get.




End Get.

(** ** Records of a sheet set, JavaScript copy *)

Lemma name_sheet_rows : data_rows_are_arrays name_sheet.
Proof.
  intros sheet headers rows Hin. simpl in Hin.
  apply elem_of_cons in Hin as [Hin | Hin]; [| by apply elem_of_nil in Hin].
  injection Hin as -> -> ->. repeat constructor. eexists. reflexivity.
Qed.

Lemma name_sheet_valid sheet data :
  (sheet, data) ∈ entries name_sheet ->
  exists headers rows,
    data = VArr (headers :: rows) /\ rows <> [] /\ valid_header_row headers.
Proof.
  simpl. intros Hin.
  apply elem_of_cons in Hin as [Hin | Hin]; [| by apply elem_of_nil in Hin].
  injection Hin as -> ->. eexists _, _. split_and!; [done | done |].
  by apply validateHeaders_spec.
Qed.

Lemma Js_convertToJson_record_keys_witness :
  (NoDup (keys name_sheet) /\ data_rows_are_arrays name_sheet)
  /\ exists result, Js.convertToJson name_sheet = Returns result.
Proof.
  assert (NoDup (keys name_sheet)) as H1 by (simpl; repeat constructor; set_solver).
  split; [split; [exact H1 | exact name_sheet_rows] |].
  destruct (Js_convertToJson_record_keys name_sheet H1 name_sheet_rows name_sheet_valid)
    as (result & Hret & _).
  exists result. exact Hret.
Defined.

(** ** Decimal numerals *)

Section Numerals.

Lemma digits_value_from_acc s : forall acc,
  digits_value_from acc s = acc * 10 ^ Z.of_nat (String.length s) + digits_value s.
Proof.
  unfold digits_value. induction s as [|c s IH]; intros acc; simpl String.length; simpl digits_value_from.
  - rewrite Z.pow_0_r. lia.
  - rewrite (IH (10 * acc + _)), (IH (10 * 0 + _)).
    rewrite Nat2Z.inj_succ, Z.pow_succ_r by lia. lia.
Qed.

Lemma digits_value_cons c s :
  digits_value (String c s)
  = (Z.of_N (code c) - 48) * 10 ^ Z.of_nat (String.length s) + digits_value s.
Proof.
  unfold digits_value at 1. simpl digits_value_from. rewrite digits_value_from_acc. lia.
Qed.

Lemma pretty_N_char_digit d :
  (d < 10)%N ->
  is_digit (pretty_N_char d) = true /\ Z.of_N (code (pretty_N_char d)) - 48 = Z.of_N d.
Proof.
  intros Hd.
  assert (d = 0 \/ d = 1 \/ d = 2 \/ d = 3 \/ d = 4 \/ d = 5 \/ d = 6 \/ d = 7
          \/ d = 8 \/ d = 9)%N as H by lia.
  repeat (destruct H as [-> | H]; [by split |]). subst. by split.
Qed.

Lemma pretty_N_go_digits x : forall s,
  digits s ->
  digits (pretty_N_go x s)
  /\ digits_value (pretty_N_go x s)
     = Z.of_N x * 10 ^ Z.of_nat (String.length s) + digits_value s
  /\ (s <> "" -> pretty_N_go x s <> "").
Proof.
  induction (N.lt_wf_0 x) as [x _ IH]. intros s Hs.
  destruct (decide (x = 0%N)) as [-> | Hx].
  { rewrite pretty_N_go_0. split_and!; [done | lia | done]. }
  rewrite pretty_N_go_step by lia.
  destruct (pretty_N_char_digit (x `mod` 10)%N) as [Hd Hv]; [by apply N.mod_lt |].
  destruct (IH (x `div` 10)%N) with (s := String (pretty_N_char (x `mod` 10)) s)
    as (Hdig & Hval & Hne).
  { apply N.div_lt; lia. }
  { unfold digits. simpl. by rewrite Hd. }
  split_and!; [done | | intros _; by apply Hne].
  rewrite Hval, digits_value_cons, Hv. simpl String.length.
  rewrite Nat2Z.inj_succ, Z.pow_succ_r by lia.
  assert (Z.of_N x = 10 * Z.of_N (x `div` 10) + Z.of_N (x `mod` 10)) as ->.
  { rewrite (N.div_mod x 10) at 1 by done. lia. }
  lia.
Qed.

Lemma pretty_N_integer_text (n : N) :
  integer_text (pretty n) /\ digits_value (pretty n) = Z.of_N n.
Proof.
  unfold pretty, pretty_N. case_decide as Hn.
  - subst. by repeat split.
  - destruct (pretty_N_go_digits n "") as (Hdig & Hval & _); [done |].
    split; [split; [| done] | ].
    + rewrite pretty_N_go_step by lia. intros Habs.
      destruct (pretty_N_go_digits (n `div` 10)%N (String (pretty_N_char (n `mod` 10)) ""))
        as (_ & _ & Hne).
      * destruct (pretty_N_char_digit (n `mod` 10)%N) as [Hd _]; [by apply N.mod_lt |].
        unfold digits. simpl. by rewrite Hd.
      * by apply Hne.
    + rewrite Hval. simpl. unfold digits_value. simpl. lia.
Qed.

(** X4: the decimal numeral of a natural number parses to the number nearest
    to that natural number: what is read is the base-10 value of the
    text. *)
Theorem parseValue_decimal_numeral (n : N) :
  parseValue (VStr (pretty n)) = VNum (number_of_Z (Z.of_N n)).
Proof.
  destruct (pretty_N_integer_text n) as [[Hne Hdig] Hval].
  by rewrite (parseValue_integer _ Hne Hdig), Hval.
Qed.

End Numerals.

(** ** The two copies side by side *)

Section Copies.

Lemma map_throwing_same_throws {A B C : Type}
    (f : A -> outcome B) (g : A -> outcome C) items e :
  (forall x e', x ∈ items -> f x = Throws e' <-> g x = Throws e') ->
  map_throwing f items = Throws e -> map_throwing g items = Throws e.
Proof.
  intros Hsame (before & x & after & -> & Hbefore & Hx)%map_throwing_throws.
  apply map_throwing_throws. exists before, x, after. split_and!; [done | |].
  - apply Forall_forall. intros x' Hin. destruct (g x') as [y|e'] eqn:E; [by eauto |].
    apply Hsame in E; [| set_solver].
    rewrite Forall_forall in Hbefore. destruct (Hbefore x' Hin) as [y Hy]. congruence.
  - apply Hsame; [set_solver | done].
Qed.

Lemma reduce_row_same_throws
    (f g : gmap string jsval -> jsval -> nat -> gmap string jsval) row e :
  reduce_row f row = Throws e <-> reduce_row g row = Throws e.
Proof. by destruct row. Qed.

Lemma sheet_records_same_throws
    (callback callback' : jsval -> gmap string jsval -> jsval -> nat -> gmap string jsval)
    entry e :
  sheet_records callback entry = Throws e -> sheet_records callback' entry = Throws e.
Proof.
  unfold sheet_records. destruct (entry.2) as [| | | | |[|headers [|row rows]]|]; try done.
  destruct (validateHeaders headers); cbn [negb]; [| done].
  apply map_throwing_same_throws. intros row' e' _. apply reduce_row_same_throws.
Qed.

Lemma convert_with_same_throws
    (callback callback' : jsval -> gmap string jsval -> jsval -> nat -> gmap string jsval)
    x e :
  convert_with callback x = Throws e -> convert_with callback' x = Throws e.
Proof.
  rewrite !convert_with_throws. apply map_throwing_same_throws.
  intros entry e' _. split; apply sheet_records_same_throws.
Qed.

(** X18: the two copies of the converter throw the same exceptions on the
    same inputs, and one returns when the other does, with entries for the
    same sheet names: they differ in the contents of the records only. *)
Theorem copies_agree_on_exceptions (x : jsval) :
  (forall e, Ts.convertToJson x = Throws e <-> Js.convertToJson x = Throws e)
  /\ (forall result,
        Ts.convertToJson x = Returns result ->
        exists result', Js.convertToJson x = Returns result' /\ dom result' = dom result)
  /\ (forall result',
        Js.convertToJson x = Returns result' ->
        exists result, Ts.convertToJson x = Returns result /\ dom result = dom result').
Proof.
  assert (forall e, Ts.convertToJson x = Throws e <-> Js.convertToJson x = Throws e) as Hthrows.
  { intros e. split; apply convert_with_same_throws. }
  assert (forall o : outcome JsonSheetData,
            (exists result, o = Returns result) \/ (exists e, o = Throws e)) as Hcases
    by (intros [result|e]; eauto).
  split_and!; [done | |].
  - intros result Hret.
    destruct (Hcases (Js.convertToJson x)) as [[result' E] | [e E]].
    + exists result'. split; [done |].
      by rewrite (convert_with_dom_loop _ _ _ Hret), (convert_with_dom_loop _ _ _ E).
    + apply Hthrows in E. congruence.
  - intros result' Hret.
    destruct (Hcases (Ts.convertToJson x)) as [[result E] | [e E]].
    + exists result. split; [done |].
      by rewrite (convert_with_dom_loop _ _ _ Hret), (convert_with_dom_loop _ _ _ E).
    + apply Hthrows in E. congruence.
Qed.

Lemma copies_agree_on_exceptions_witness :
  Ts.convertToJson duplicate_headers_sheet
  = Throws (Error "Invalid or duplicate headers in sheet: Bad")
  /\ Js.convertToJson duplicate_headers_sheet
     = Throws (Error "Invalid or duplicate headers in sheet: Bad").
Proof.
  assert (Ts.convertToJson duplicate_headers_sheet
          = Throws (Error "Invalid or duplicate headers in sheet: Bad")) as H by reflexivity.
  split; [exact H |].
  exact (proj1 (proj1 (copies_agree_on_exceptions duplicate_headers_sheet) _) H).
Defined.

Lemma keys_nothing_to_convert x : keys x = [] -> nothing_to_convert x = true.
Proof. intros H. unfold nothing_to_convert. rewrite H. simpl. by rewrite orb_true_r. Qed.

(** X17: on an object without a sheet named "__proto__", the empty record
    set is what the conversion returns exactly when the object has no sheet
    entries. *)
Theorem convertToJson_empty_result :
  both_copies (fun convertToJson =>
    forall x,
      typeof x = "object" -> "__proto__" ∉ keys x ->
      convertToJson x = Returns ∅ <-> keys x = []).
Proof.
  assert (forall callback x,
            typeof x = "object" -> "__proto__" ∉ keys x ->
            convert_with callback x = Returns ∅ <-> keys x = []) as Hgen.
  { intros callback x Hx Hproto. split.
    - intros Hdom%convert_with_dom; [| done]. rewrite dom_empty_L in Hdom.
      destruct (keys x) as [|k ks]; [done |].
      assert (k ∈ own_names (k :: ks)) as Hk.
      { apply elem_of_own_names. split; [by left |]. intros ->. apply Hproto. by left. }
      rewrite <- Hdom in Hk. by apply elem_of_empty in Hk.
    - intros H. by apply convert_with_guard, keys_nothing_to_convert. }
  split; intros x; apply Hgen.
Qed.

Lemma convertToJson_empty_result_witness :
  (typeof (VObj []) = "object" /\ "__proto__" ∉ keys (VObj []))
  /\ keys (VObj []) = [] /\ Ts.convertToJson (VObj []) = Returns ∅.
Proof.
  assert ("__proto__" ∉ keys (VObj [])) as H by apply not_elem_of_nil.
  split; [split; [reflexivity | exact H] |].
  split; [reflexivity |].
  exact (proj2 (proj1 convertToJson_empty_result (VObj []) eq_refl H) eq_refl).
Defined.

End Copies.
